(** * Meshtastic <-> Matrix relay: a shallow embedding of [main.py]

    The relay has two callbacks.  [on_meshtastic_message] receives a packet
    from the radio and schedules coroutines on the asyncio loop, one per
    plugin and one [matrix_relay] per mapped room.  [on_room_message]
    receives a Matrix event, formats it, runs the plugins and hands the text
    to the radio with [sendText].  Both use [truncate_message] and a handful
    of string primitives of the Python library, which are embedded first. *)

From Stdlib Require Import ZArith List Lia Bool String Ascii.
From stdpp Require Import base option list gmap.
Import ListNotations.

Local Open Scope Z_scope.

(* ===================================================================== *)
(** * Python strings and bytes *)
(* ===================================================================== *)

(** A Python [str] is a sequence of code points, a [bytes] object a sequence
    of integers below 256.  Indexing and slicing of a [str] count code
    points, not bytes. *)
Definition pystr := list Z.
Definition pybytes := list Z.

(** Literals of the development are ASCII. *)
Definition py (s : string) : pystr :=
  map (fun a => Z.of_N (N_of_ascii a)) (list_ascii_of_string s).

(** Truthiness of a value that is [None] or a [str]: only a non-empty
    string is true. *)
Definition truthy (o : option pystr) : bool :=
  match o with
  | Some (_ :: _) => true
  | _ => false
  end.

(** [x or y] for such values. *)
Definition or_else (o : option pystr) (d : pystr) : pystr :=
  match o with
  | Some (c :: s) => c :: s
  | _ => d
  end.

(** [s[:n]] for a literal [n >= 0], and the general [s[:n]] where a negative
    bound counts from the end. *)
Definition slice_to {A} (l : list A) (n : Z) : list A :=
  if 0 <=? n then take (Z.to_nat n) l
  else take (Z.to_nat (Z.of_nat (length l) + n)) l.

(** ** UTF-8 *)

(** Code points that [str.encode("utf-8")] accepts: everything up to
    U+10FFFF but the surrogates, on which it raises [UnicodeEncodeError]. *)
Definition is_surrogate (c : Z) : bool := (0xD800 <=? c) && (c <=? 0xDFFF).
Definition encodable (c : Z) : bool :=
  (0 <=? c) && (c <=? 0x10FFFF) && negb (is_surrogate c).

(** The bytes of one code point; [0xC0 | (c >> 6)] is written [192 + c / 64]
    and [0x80 | (c & 0x3f)] is written [128 + c mod 64]. *)
Definition utf8_encode_char (c : Z) : option pybytes :=
  if negb (encodable c) then None
  else if c <? 0x80 then Some [c]
  else if c <? 0x800 then Some [192 + c / 64; 128 + c mod 64]
  else if c <? 0x10000 then
    Some [224 + c / 4096; 128 + (c / 64) mod 64; 128 + c mod 64]
  else
    Some [240 + c / 262144; 128 + (c / 4096) mod 64;
          128 + (c / 64) mod 64; 128 + c mod 64].

(** The shapes of an encoded code point, as a relation: one to four bytes,
    the first of which tells the length. *)
Inductive encoded_char (c : Z) : pybytes -> Prop :=
| Enc1 : 0 <= c < 0x80 -> encoded_char c [c]
| Enc2 b1 b2 : 0x80 <= c < 0x800 ->
    b1 = 192 + c / 64 -> b2 = 128 + c mod 64 ->
    encoded_char c [b1; b2]
| Enc3 b1 b2 b3 : 0x800 <= c < 0x10000 -> ~ (0xD800 <= c <= 0xDFFF) ->
    b1 = 224 + c / 4096 -> b2 = 128 + (c / 64) mod 64 -> b3 = 128 + c mod 64 ->
    encoded_char c [b1; b2; b3]
| Enc4 b1 b2 b3 b4 : 0x10000 <= c <= 0x10FFFF ->
    b1 = 240 + c / 262144 -> b2 = 128 + (c / 4096) mod 64 ->
    b3 = 128 + (c / 64) mod 64 -> b4 = 128 + c mod 64 ->
    encoded_char c [b1; b2; b3; b4].

(** [text.encode("utf-8")]; [None] stands for [UnicodeEncodeError]. *)
Fixpoint utf8_encode (s : pystr) : option pybytes :=
  match s with
  | [] => Some []
  | c :: s' =>
      match utf8_encode_char c, utf8_encode s' with
      | Some b, Some bs => Some (b ++ bs)
      | _, _ => None
      end
  end.

(** The two error handlers the relay can meet: [bytes.decode("utf-8")] and
    [bytes.decode("utf-8", "ignore")]. *)
Inductive decode_errors := Strict | Ignore.

Definition is_continuation (b : Z) : bool := (0x80 <=? b) && (b <? 0xC0).

(** What the decoder does with the bytes it rejects: the strict handler
    raises, [ignore] drops them and goes on with [rest]. *)
Definition on_error (e : decode_errors) (rest : option pystr) : option pystr :=
  match e with
  | Strict => None
  | Ignore => rest
  end.

Definition emit (c : Z) (rest : option pystr) : option pystr :=
  match rest with
  | Some s => Some (c :: s)
  | None => None
  end.

(** CPython's UTF-8 decoder.  A byte that cannot start a sequence is
    rejected alone; a sequence broken by a byte that cannot continue it is
    rejected up to that byte, which is then read again; a sequence cut by the
    end of the data is rejected whole. *)
Fixpoint utf8_decode (e : decode_errors) (bs : pybytes) : option pystr :=
  match bs with
  | [] => Some []
  | b1 :: r1 =>
      if b1 <? 0x80 then emit b1 (utf8_decode e r1)
      else if b1 <? 0xC2 then on_error e (utf8_decode e r1)
      else if b1 <? 0xE0 then
        match r1 with
        | [] => on_error e (Some [])
        | b2 :: r2 =>
            if negb (is_continuation b2) then on_error e (utf8_decode e r1)
            else emit (b1 * 64 + b2 - (0xC0 * 64 + 0x80)) (utf8_decode e r2)
        end
      else if b1 <? 0xF0 then
        match r1 with
        | [] => on_error e (Some [])
        | b2 :: r2 =>
            if negb (is_continuation b2)
               || (if b2 <? 0xA0 then b1 =? 0xE0 else b1 =? 0xED)
            then on_error e (utf8_decode e r1)
            else
              match r2 with
              | [] => on_error e (Some [])
              | b3 :: r3 =>
                  if negb (is_continuation b3)
                  then on_error e (utf8_decode e r2)
                  else emit (b1 * 4096 + b2 * 64 + b3
                             - (0xE0 * 4096 + 0x80 * 64 + 0x80))
                            (utf8_decode e r3)
              end
        end
      else if b1 <? 0xF5 then
        match r1 with
        | [] => on_error e (Some [])
        | b2 :: r2 =>
            if negb (is_continuation b2)
               || (if b2 <? 0x90 then b1 =? 0xF0 else b1 =? 0xF4)
            then on_error e (utf8_decode e r1)
            else
              match r2 with
              | [] => on_error e (Some [])
              | b3 :: r3 =>
                  if negb (is_continuation b3)
                  then on_error e (utf8_decode e r2)
                  else
                    match r3 with
                    | [] => on_error e (Some [])
                    | b4 :: r4 =>
                        if negb (is_continuation b4)
                        then on_error e (utf8_decode e r3)
                        else emit (b1 * 262144 + b2 * 4096 + b3 * 64 + b4
                                   - (0xF0 * 262144 + 0x80 * 4096
                                      + 0x80 * 64 + 0x80))
                                  (utf8_decode e r4)
                    end
              end
        end
      else on_error e (utf8_decode e r1)
  end.

(** ** [truncate_message] *)

(** [text.encode("utf-8")[:max_bytes].decode("utf-8", "ignore")]; [None]
    when [encode] raises. *)
Definition truncate_message (text : pystr) (max_bytes : Z) : option pystr :=
  match utf8_encode text with
  | Some bs => utf8_decode Ignore (slice_to bs max_bytes)
  | None => None
  end.

Definition default_max_bytes : Z := 227.

(** ** [str.strip()] *)

(** The code points for which [str.isspace] holds. *)
Definition is_space (c : Z) : bool :=
  ((0x09 <=? c) && (c <=? 0x0D)) || ((0x1C <=? c) && (c <=? 0x20))
  || (c =? 0x85) || (c =? 0xA0) || (c =? 0x1680)
  || ((0x2000 <=? c) && (c <=? 0x200A))
  || (c =? 0x2028) || (c =? 0x2029) || (c =? 0x202F) || (c =? 0x205F)
  || (c =? 0x3000).

Fixpoint lstrip (s : pystr) : pystr :=
  match s with
  | c :: s' => if is_space c then lstrip s' else s
  | [] => []
  end.

Definition rstrip (s : pystr) : pystr := rev (lstrip (rev s)).

Definition strip (s : pystr) : pystr := rstrip (lstrip s).

(** ** [re.sub(pattern, "", text)] *)

(** The patterns the relay builds are ["^\[" + tag + "\]: "], with the tag
    pasted in as it is.  The fragment of the pattern language interpreted
    here is a leading [^] followed by a non-empty sequence of literals,
    escaped punctuation and dots; every other pattern is left to
    [re_beyond], the rest of the [re] module, which may also raise
    [re.error]. *)
Inductive re_item :=
| Lit (c : Z)   (* an ordinary or an escaped character *)
| AnyChar.      (* [.]: any character but a newline *)

Inductive re_result :=
| ReOk (s : pystr)
| ReError.

Definition is_ascii_alnum (c : Z) : bool :=
  ((0x30 <=? c) && (c <=? 0x39)) || ((0x41 <=? c) && (c <=? 0x5A))
  || ((0x61 <=? c) && (c <=? 0x7A)).

(** The characters with a meaning of their own outside a class:
    [( ) * + ? [ { | ^ $]; the dot and the backslash are read by
    [re_items]. *)
Definition is_re_operator (c : Z) : bool :=
  (c =? 0x28) || (c =? 0x29) || (c =? 0x2A) || (c =? 0x2B) || (c =? 0x3F)
  || (c =? 0x5B) || (c =? 0x7B) || (c =? 0x7C) || (c =? 0x5E) || (c =? 0x24).

Fixpoint re_items (p : pystr) : option (list re_item) :=
  match p with
  | [] => Some []
  | c :: p' =>
      if c =? 0x5C then
        match p' with
        | [] => None
        | d :: p'' =>
            if is_ascii_alnum d then None
            else match re_items p'' with
                 | Some its => Some (Lit d :: its)
                 | None => None
                 end
        end
      else if c =? 0x2E then
        match re_items p' with
        | Some its => Some (AnyChar :: its)
        | None => None
        end
      else if is_re_operator c then None
      else match re_items p' with
           | Some its => Some (Lit c :: its)
           | None => None
           end
  end.

Definition item_matches (it : re_item) (c : Z) : bool :=
  match it with
  | Lit d => c =? d
  | AnyChar => negb (c =? 0x0A)
  end.

(** Matching a sequence of items at the start of [text]: what follows the
    match, if there is one. *)
Fixpoint match_items (its : list re_item) (text : pystr) : option pystr :=
  match its, text with
  | [], _ => Some text
  | it :: its', c :: text' =>
      if item_matches it c then match_items its' text' else None
  | _ :: _, [] => None
  end.

(** [re.sub(pattern, "", text)].  Without [re.MULTILINE] a pattern that
    starts with [^] matches at position 0 or nowhere, and the items consume
    at least one character, so at most one match is deleted. *)
Definition re_sub_delete (re_beyond : pystr -> pystr -> re_result)
    (pattern text : pystr) : re_result :=
  match pattern with
  | c :: p =>
      if c =? 0x5E then
        match re_items p with
        | Some (it :: its) =>
            match match_items (it :: its) text with
            | Some rest => ReOk rest
            | None => ReOk text
            end
        | _ => re_beyond pattern text
        end
      else re_beyond pattern text
  | [] => re_beyond pattern text
  end.

(** Lines 258-260: [re.sub(rf"^\[{full_display_name}\]: ", "", text)]. *)
Definition strip_own_prefix (re_beyond : pystr -> pystr -> re_result)
    (text full_display_name : pystr) : re_result :=
  re_sub_delete re_beyond
    (py "^\[" ++ full_display_name ++ py "\]: ") text.

(** The spec's [stripOwnPrefix]: one leading occurrence of the bracketed tag
    is removed if the text starts with it, and the text is left alone
    otherwise. *)
Definition strip_literal_prefix (text tag : pystr) : pystr :=
  let bracketed := py "[" ++ tag ++ py "]: " in
  if bool_decide (bracketed `prefix_of` text)
  then drop (length bracketed) text
  else text.

(** The characters that stand for themselves in a pattern. *)
Definition re_plain (c : Z) : bool :=
  negb ((c =? 0x5C) || (c =? 0x2E) || is_re_operator c).

(* ===================================================================== *)
(** * Configuration, packets, events, plugins *)
(* ===================================================================== *)

(** An entry of [matrix_rooms] in [config.yaml]. *)
Record RoomConfig := {
  room_id : pystr;
  meshtastic_channel : Z;
}.

(** The parts of [relay_config] the callbacks read, and the moment the
    process started, in milliseconds. *)
Record Config := {
  matrix_rooms : list RoomConfig;
  meshnet_name : pystr;
  broadcast_enabled : bool;
  bot_user_id : pystr;
  bot_start_time : Z;
}.

(** A packet as the radio library hands it over: [packet["fromId"]], the
    optional [packet["channel"]], and of [packet["decoded"]] the optional
    ["text"] and the ["portnum"]. *)
Record Packet := {
  fromId : pystr;
  channel : option Z;
  decoded_text : option pystr;
  portnum : pystr;
}.

(** A [RoomMessageText] or [RoomMessageNotice]; the two provenance fields
    are what [event.source["content"].get(...)] returns. *)
Record Event := {
  sender : pystr;
  server_timestamp : Z;
  body : pystr;
  meshtastic_longname : option pystr;
  meshtastic_meshnet : option pystr;
}.

(** The content of an outbound chat message. *)
Record Content := {
  msgtype : pystr;
  content_body : pystr;
  content_longname : pystr;
  content_meshnet : pystr;
}.

(** How a call ends. *)
Inductive completion := Returns | Raises.

(** A plugin is an object of another module.  Its two handlers are
    coroutine functions, of which only the way they end matters here;
    [configure] stores the two client handles. *)
Record Plugin := {
  plugin_name : pystr;
  handle_meshtastic_message : Packet -> pystr -> pystr -> pystr -> completion;
  handle_room_message : pystr -> Event -> pystr -> completion;
}.

(** The answer of [matrix_client.get_displayname]; an error response has no
    [displayname] attribute. *)
Inductive displayname_response :=
| ProfileGetDisplayNameResponse (displayname : option pystr)
| ProfileGetDisplayNameError.

(** What the callbacks do not decide themselves. *)
Record World := {
  get_displayname : pystr -> displayname_response;
  re_beyond : pystr -> pystr -> re_result;
}.

(** Modelled from the spec: [get_longname] of [db_utils], which is not among
    the sources; it "returns cached value or node_id itself if absent", the
    fallback being the [or sender] of the caller.  The cache maps a node id
    to a longname. *)
Definition get_longname (db : gmap pystr pystr) (node_id : pystr)
  : option pystr := db !! node_id.

(** A coroutine object handed to the loop. *)
Inductive Coroutine :=
| PluginCoroutine (p : Plugin) (packet : Packet)
    (formatted_message longname meshnet : pystr)
| MatrixRelay (room : pystr) (message longname meshnet : pystr).

(** What a callback does to the outside, in order. *)
Inductive Action :=
| Configure (p : Plugin)
| Schedule (c : Coroutine)
| GetDisplayname (user : pystr)
| HandleRoomMessage (p : Plugin) (room : pystr) (ev : Event)
    (full_message : pystr)
| SendText (text : pystr) (channelIndex : Z)
| RoomSend (room : pystr) (message_type : pystr) (content : Content).

Inductive Exn :=
| AttributeError
| UnicodeEncodeError
| RegexError
| PluginError (p : Plugin).

Inductive Outcome (A : Type) :=
| Ret (a : A)
| Raise (e : Exn).
Arguments Ret {A} a.
Arguments Raise {A} e.

(** A computation: the actions performed, and a value or the exception that
    stopped it. *)
Definition M (A : Type) : Type := list Action * Outcome A.

Definition ret {A} (a : A) : M A := ([], Ret a).
Definition raise {A} (e : Exn) : M A := ([], Raise e).
Definition act (a : Action) : M unit := ([a], Ret tt).

Definition bind {A B} (m : M A) (k : A -> M B) : M B :=
  match m with
  | (t, Ret a) => let (t', r) := k a in (t ++ t', r)
  | (t, Raise e) => (t, Raise e)
  end.

Notation "x <- m ;; k" := (bind m (fun x => k))
  (at level 100, m at next level, right associativity).
Notation "m ;;; k" := (bind m (fun _ => k))
  (at level 100, right associativity).

(** [for x in l: body(x)]. *)
Fixpoint for_each {A} (l : list A) (body : A -> M unit) : M unit :=
  match l with
  | [] => ret tt
  | x :: l' => body x ;;; for_each l' body
  end.

Definition trace {A} (m : M A) : list Action := fst m.
Definition outcome {A} (m : M A) : Outcome A := snd m.

(* ===================================================================== *)
(** * Radio to chat *)
(* ===================================================================== *)

(** [matrix_relay]: one [room_send], awaited for half a second.  The
    time-out and every other exception are caught and logged, so the
    coroutine returns in all cases. *)
Definition matrix_relay (room message longname meshnet : pystr) : M unit :=
  let content := {| msgtype := py "m.text";
                    content_body := message;
                    content_longname := longname;
                    content_meshnet := meshnet |} in
  act (RoomSend room (py "m.room.message") content).

(** Lines 155-162: the channel of a text packet, [None] where the callback
    returns with "Unknown packet". *)
Definition packet_channel (packet : Packet) : option Z :=
  match channel packet with
  | Some ch => Some ch
  | None =>
      if bool_decide (portnum packet = py "TEXT_MESSAGE_APP") then Some 0
      else None
  end.

(** Lines 165-169. *)
Definition channel_mapped (cfg : Config) (ch : Z) : bool :=
  existsb (fun room => meshtastic_channel room =? ch) (matrix_rooms cfg).

(** Lines 188-195: every plugin is configured and its handler's coroutine
    handed to the loop. *)
Definition plugin_schedule (packet : Packet)
    (formatted_message longname meshnet : pystr) (plugins : list Plugin)
  : list Action :=
  flat_map
    (fun plugin =>
       [Configure plugin;
        Schedule (PluginCoroutine plugin packet formatted_message
                    longname meshnet)])
    plugins.

(** Lines 197-208: one [matrix_relay] per entry of [matrix_rooms] with the
    packet's channel. *)
Definition room_schedule (ch : Z)
    (formatted_message longname meshnet : pystr) (rooms : list RoomConfig)
  : list Action :=
  flat_map
    (fun room =>
       if meshtastic_channel room =? ch
       then [Schedule (MatrixRelay (room_id room) formatted_message
                         longname meshnet)]
       else [])
    rooms.

(** [on_meshtastic_message]: the callback runs on the radio library's thread
    and only schedules coroutines.  In the last branch the port number
    selects a log line and nothing else. *)
Definition on_meshtastic_message (cfg : Config) (db : gmap pystr pystr)
    (plugins : list Plugin) (packet : Packet) : list Action :=
  let sender := fromId packet in
  match decoded_text packet with
  | Some (c :: s) =>
      let text := c :: s in
      match packet_channel packet with
      | None => []
      | Some ch =>
          if negb (channel_mapped cfg ch) then []
          else
            let longname := or_else (get_longname db sender) sender in
            let meshnet := meshnet_name cfg in
            let formatted_message :=
              py "[" ++ longname ++ py "/" ++ meshnet ++ py "]: " ++ text in
            plugin_schedule packet formatted_message longname meshnet plugins
            ++ room_schedule ch formatted_message longname meshnet
                 (matrix_rooms cfg)
      end
  | _ => []
  end.

(** The spec's [roomsForChannel]: the configured rooms whose channel is
    [ch]. *)
Definition rooms_for_channel (cfg : Config) (ch : Z) : list RoomConfig :=
  filter (fun rc => meshtastic_channel rc = ch) (matrix_rooms cfg).

(** Running a scheduled coroutine.  A plugin's handler ends as the plugin
    decides. *)
Definition run_coroutine (c : Coroutine) : M unit :=
  match c with
  | PluginCoroutine p packet formatted_message longname meshnet =>
      match handle_meshtastic_message p packet formatted_message
              longname meshnet with
      | Returns => ret tt
      | Raises => raise (PluginError p)
      end
  | MatrixRelay room message longname meshnet =>
      matrix_relay room message longname meshnet
  end.

(** The loop runs what was scheduled, in order; an exception ends the
    coroutine that raised it and is kept in its future, which nobody
    reads. *)
Definition run_loop (scheduled : list Action) : list Action :=
  flat_map
    (fun a => match a with
              | Schedule c => trace (run_coroutine c)
              | _ => []
              end)
    scheduled.

(** The relay coroutines a list of actions schedules, the chat sends in a
    list of actions, and the rooms they go to. *)
Definition relays_scheduled (l : list Action) : list Coroutine :=
  flat_map
    (fun a => match a with
              | Schedule (MatrixRelay room message longname meshnet) =>
                  [MatrixRelay room message longname meshnet]
              | _ => []
              end)
    l.

Definition room_sends (l : list Action) : list (pystr * Content) :=
  flat_map
    (fun a => match a with
              | RoomSend room _ content => [(room, content)]
              | _ => []
              end)
    l.

Definition rooms_sent_to (l : list Action) : list pystr :=
  map fst (room_sends l).

Definition plugins_scheduled (l : list Action) : list Plugin :=
  flat_map
    (fun a => match a with
              | Schedule (PluginCoroutine p _ _ _ _) => [p]
              | _ => []
              end)
    l.

(* ===================================================================== *)
(** * Chat to radio *)
(* ===================================================================== *)

(** [truncate_message(text)] inside the callback. *)
Definition truncate_or_raise (text : pystr) : M pystr :=
  match truncate_message text default_max_bytes with
  | Some t => ret t
  | None => raise UnicodeEncodeError
  end.

(** Lines 254-262: a message another relay brought in from a remote
    meshnet gets a short prefix in place of its bracketed tag. *)
Definition format_remote_meshnet (w : World) (longname meshnet text : pystr)
  : M (option pystr) :=
  let full_display_name := longname ++ py "/" ++ meshnet in
  let short_longname := slice_to longname 3 in
  let short_meshnet_name := slice_to meshnet 4 in
  let prefix := short_longname ++ py "/" ++ short_meshnet_name ++ py ": " in
  match strip_own_prefix (re_beyond w) text full_display_name with
  | ReError => raise RegexError
  | ReOk text =>
      text <- truncate_or_raise text ;;
      ret (Some (prefix ++ text))
  end.

(** Lines 268-278: a message of a chat user is prefixed with the start of
    the user's display name. *)
Definition format_chat_origin (w : World) (ev : Event) (text : pystr)
  : M (option pystr) :=
  act (GetDisplayname (sender ev)) ;;;
  match get_displayname w (sender ev) with
  | ProfileGetDisplayNameError => raise AttributeError
  | ProfileGetDisplayNameResponse displayname =>
      let full_display_name := or_else displayname (sender ev) in
      let short_display_name := slice_to full_display_name 5 in
      let prefix := short_display_name ++ py "[M]: " in
      text <- truncate_or_raise text ;;
      ret (Some (prefix ++ text))
  end.

(** Lines 245-278: the message to relay, or [None] where the callback
    returns at line 265. *)
Definition format_room_message (w : World) (cfg : Config) (ev : Event)
  : M (option pystr) :=
  let text := strip (body ev) in
  let local_meshnet_name := meshnet_name cfg in
  match meshtastic_longname ev, meshtastic_meshnet ev with
  | Some (l :: ls), Some (m :: ms) =>
      let longname := l :: ls in
      let meshnet := m :: ms in
      if bool_decide (meshnet <> local_meshnet_name)
      then format_remote_meshnet w longname meshnet text
      else ret None
  | _, _ => format_chat_origin w ev text
  end.

(** Lines 280-284: the first entry of [matrix_rooms] with the room's id. *)
Definition find_room_config (cfg : Config) (room : pystr)
  : option RoomConfig :=
  find (fun config => bool_decide (room_id config = room)) (matrix_rooms cfg).

(** Lines 287-289: the handlers are awaited one after the other. *)
Definition dispatch_room_plugins (plugins : list Plugin) (room : pystr)
    (ev : Event) (full_message : pystr) : M unit :=
  for_each plugins
    (fun plugin =>
       act (Configure plugin) ;;;
       act (HandleRoomMessage plugin room ev full_message) ;;;
       match handle_room_message plugin room ev full_message with
       | Returns => ret tt
       | Raises => raise (PluginError plugin)
       end).

(** What the loop of lines 287-289 does for the plugins whose handler was
    reached. *)
Definition room_plugin_calls (room : pystr) (ev : Event)
    (full_message : pystr) (plugins : list Plugin) : list Action :=
  flat_map
    (fun plugin =>
       [Configure plugin; HandleRoomMessage plugin room ev full_message])
    plugins.

(** [on_room_message]. *)
Definition on_room_message (w : World) (cfg : Config)
    (plugins : list Plugin) (room : pystr) (ev : Event) : M unit :=
  if bool_decide (sender ev <> bot_user_id cfg) then
    if bot_start_time cfg <? server_timestamp ev then
      formatted <- format_room_message w cfg ev ;;
      match formatted with
      | None => ret tt
      | Some full_message =>
          let room_config := find_room_config cfg room in
          dispatch_room_plugins plugins room ev full_message ;;;
          match room_config with
          | Some config =>
              if broadcast_enabled cfg
              then act (SendText full_message (meshtastic_channel config))
              else ret tt
          | None => ret tt
          end
      end
    else ret tt
  else ret tt.

(** The texts handed to the radio, and the plugins whose handler was
    awaited. *)
Definition radio_sends (l : list Action) : list (pystr * Z) :=
  flat_map
    (fun a => match a with
              | SendText text ch => [(text, ch)]
              | _ => []
              end)
    l.

Definition plugins_handled (l : list Action) : list Plugin :=
  flat_map
    (fun a => match a with
              | HandleRoomMessage p _ _ _ => [p]
              | _ => []
              end)
    l.

(* ===================================================================== *)
(** * Sample data *)
(* ===================================================================== *)

Definition example_world : World := {|
  get_displayname := fun _ =>
    ProfileGetDisplayNameResponse (Some (py "Alice Liddell"));
  re_beyond := fun _ _ => ReError;
|}.

(** Channel 0 goes to one room; the local meshnet is MeshA. *)
Definition example_config : Config := {|
  matrix_rooms := [ {| room_id := py "!room1"; meshtastic_channel := 0 |} ];
  meshnet_name := py "MeshA";
  broadcast_enabled := true;
  bot_user_id := py "@relay:example.org";
  bot_start_time := 1000;
|}.

Definition example_config_no_broadcast : Config := {|
  matrix_rooms := matrix_rooms example_config;
  meshnet_name := meshnet_name example_config;
  broadcast_enabled := false;
  bot_user_id := bot_user_id example_config;
  bot_start_time := bot_start_time example_config;
|}.

(** A message another relay brought into the room from meshnet MeshB. *)
Definition remote_event : Event := {|
  sender := py "@other:example.org";
  server_timestamp := 2000;
  body := py "[Bob/MeshB]: yo";
  meshtastic_longname := Some (py "Bob");
  meshtastic_meshnet := Some (py "MeshB");
|}.

(** A message that names the local meshnet but carries no longname. *)
Definition nameless_local_event : Event := {|
  sender := py "@other:example.org";
  server_timestamp := 2000;
  body := py "hello";
  meshtastic_longname := None;
  meshtastic_meshnet := Some (py "MeshA");
|}.

(** A message of this relay's own making, as [matrix_relay] sends it. *)
Definition own_event : Event := {|
  sender := py "@other:example.org";
  server_timestamp := 2000;
  body := py "[Alice/MeshA]: hi";
  meshtastic_longname := Some (py "Alice");
  meshtastic_meshnet := Some (py "MeshA");
|}.

(** A message typed by a chat user, older than the process. *)
Definition backlog_event : Event := {|
  sender := py "@other:example.org";
  server_timestamp := 1000;
  body := py "old news";
  meshtastic_longname := None;
  meshtastic_meshnet := None;
|}.

(** A chat user's message of 300 bytes. *)
Definition long_event : Event := {|
  sender := py "@other:example.org";
  server_timestamp := 2000;
  body := repeat 97 300;
  meshtastic_longname := None;
  meshtastic_meshnet := None;
|}.

(** A remote longname with a dot in it, and a body whose bracketed tag is a
    different one. *)
Definition dotted_event : Event := {|
  sender := py "@other:example.org";
  server_timestamp := 2000;
  body := py "[Bxb/MeshB]: yo";
  meshtastic_longname := Some (py "B.b");
  meshtastic_meshnet := Some (py "MeshB");
|}.

Definition alice_packet (pn : pystr) : Packet := {|
  fromId := py "!abcd";
  channel := Some 0;
  decoded_text := Some (py "hi");
  portnum := pn;
|}.

(** A packet on a channel no room is configured for. *)
Definition channel5_packet : Packet := {|
  fromId := py "!abcd";
  channel := Some 5;
  decoded_text := Some (py "hi");
  portnum := py "TEXT_MESSAGE_APP";
|}.

Definition telemetry_packet : Packet := {|
  fromId := py "!abcd";
  channel := Some 0;
  decoded_text := None;
  portnum := py "TELEMETRY_APP";
|}.

(** A packet that carries a text under the telemetry port number. *)
Definition telemetry_text_packet : Packet := {|
  fromId := py "!abcd";
  channel := Some 0;
  decoded_text := Some (py "x");
  portnum := py "TELEMETRY_APP";
|}.

Definition example_db : gmap pystr pystr :=
  <[py "!abcd" := py "Alice"]> ∅.

Definition quiet_plugin : Plugin := {|
  plugin_name := py "quiet";
  handle_meshtastic_message := fun _ _ _ _ => Returns;
  handle_room_message := fun _ _ _ => Returns;
|}.

Definition failing_plugin : Plugin := {|
  plugin_name := py "failing";
  handle_meshtastic_message := fun _ _ _ _ => Raises;
  handle_room_message := fun _ _ _ => Raises;
|}.

(* ===================================================================== *)
(** * A message on its way through a room *)
(* ===================================================================== *)

(** What a relay sends with [room_send] comes to every client of the room,
    this relay included, as an event: the body is the content's, and the
    two provenance fields are found in [event.source["content"]].  The
    homeserver adds the sender and the timestamp. *)
Definition event_of_room_send (sender : pystr) (server_timestamp : Z)
    (content : Content) : Event := {|
  sender := sender;
  server_timestamp := server_timestamp;
  body := content_body content;
  meshtastic_longname := Some (content_longname content);
  meshtastic_meshnet := Some (content_meshnet content);
|}.

(** Lines 179-182: the longname of a packet's sender and the message built
    from it. *)
Definition packet_longname (db : gmap pystr pystr) (packet : Packet)
  : pystr :=
  or_else (get_longname db (fromId packet)) (fromId packet).

Definition packet_content (cfg : Config) (db : gmap pystr pystr)
    (packet : Packet) (text : pystr) : Content := {|
  msgtype := py "m.text";
  content_body := py "[" ++ packet_longname db packet ++ py "/"
                  ++ meshnet_name cfg ++ py "]: " ++ text;
  content_longname := packet_longname db packet;
  content_meshnet := meshnet_name cfg;
|}.

(* ===================================================================== *)
(** * Start-up: joining the configured rooms *)
(* ===================================================================== *)

(** The answer of [matrix_client.resolve_room_alias]: a response whose
    [room_id] may be empty, or an exception (an error response, which has
    no [room_id], ends there too). *)
Inductive alias_response :=
| RoomResolveAliasResponse (resolved : pystr)
| RoomResolveAliasRaises.

(** The answer of [matrix_client.join]. *)
Inductive join_response :=
| JoinResponse
| JoinError
| JoinRaises.

(** The client at start-up.  [client_rooms] are the keys of
    [matrix_client.rooms], which only a sync changes. *)
Record MatrixClient := {
  client_rooms : gset pystr;
  resolve_room_alias : pystr -> alias_response;
  join : pystr -> join_response;
}.

Inductive log_level := LogDebug | LogInfo | LogError.

Inductive StartupAction :=
| ResolveRoomAlias (room_alias : pystr)
| Join (room : pystr)
| LogLine (level : log_level) (room_id_or_alias : pystr).

(** [s.startswith("#")]. *)
Definition starts_with_hash (s : pystr) : bool :=
  match s with
  | c :: _ => c =? 0x23
  | [] => false
  end.

(** Lines 89-98 of [join_matrix_room], once the room id is known. *)
Definition join_if_absent (client : MatrixClient)
    (room_id_or_alias room : pystr) : list StartupAction :=
  if bool_decide (room ∉ client_rooms client) then
    Join room ::
    match join client room with
    | JoinResponse => [LogLine LogInfo room_id_or_alias]
    | JoinError => [LogLine LogError room_id_or_alias]
    | JoinRaises => [LogLine LogError room_id_or_alias]
    end
  else [LogLine LogDebug room_id_or_alias].

(** [join_matrix_room]: the whole body is in a [try] whose [except
    Exception] logs, so the coroutine returns in every case. *)
Definition join_matrix_room (client : MatrixClient)
    (room_id_or_alias : pystr) : list StartupAction :=
  if starts_with_hash room_id_or_alias then
    ResolveRoomAlias room_id_or_alias ::
    match resolve_room_alias client room_id_or_alias with
    | RoomResolveAliasRaises => [LogLine LogError room_id_or_alias]
    | RoomResolveAliasResponse [] => [LogLine LogError room_id_or_alias]
    | RoomResolveAliasResponse (c :: r) =>
        join_if_absent client room_id_or_alias (c :: r)
    end
  else join_if_absent client room_id_or_alias room_id_or_alias.

(** Lines 335-336 of [main]. *)
Definition join_configured_rooms (client : MatrixClient) (cfg : Config)
  : list StartupAction :=
  flat_map (fun room => join_matrix_room client (room_id room))
    (matrix_rooms cfg).

Definition joins (l : list StartupAction) : list pystr :=
  flat_map
    (fun a => match a with
              | Join room => [room]
              | _ => []
              end)
    l.

Definition aliases_resolved (l : list StartupAction) : list pystr :=
  flat_map
    (fun a => match a with
              | ResolveRoomAlias room_alias => [room_alias]
              | _ => []
              end)
    l.

(* ===================================================================== *)
(** * More sample data *)
(* ===================================================================== *)

(** A second relay in the same room, on meshnet MeshB. *)
Definition example_config_b : Config := {|
  matrix_rooms := [ {| room_id := py "!room1"; meshtastic_channel := 2 |} ];
  meshnet_name := py "MeshB";
  broadcast_enabled := true;
  bot_user_id := py "@relay-b:example.org";
  bot_start_time := 1500;
|}.

(** A message typed by a chat user who has no display name. *)
Definition plain_event : Event := {|
  sender := py "@other:example.org";
  server_timestamp := 2000;
  body := py "  good morning ";
  meshtastic_longname := None;
  meshtastic_meshnet := None;
|}.

Definition nameless_world : World := {|
  get_displayname := fun _ => ProfileGetDisplayNameResponse None;
  re_beyond := fun _ _ => ReError;
|}.

(** A body with a lone surrogate in it. *)
Definition surrogate_event : Event := {|
  sender := py "@other:example.org";
  server_timestamp := 2000;
  body := [0x68; 0xD800; 0x69];
  meshtastic_longname := None;
  meshtastic_meshnet := None;
|}.

(** A packet whose text is one space. *)
Definition blank_packet : Packet := {|
  fromId := py "!abcd";
  channel := Some 0;
  decoded_text := Some (py " ");
  portnum := py "TEXT_MESSAGE_APP";
|}.

(** A text packet that has no channel field. *)
Definition channelless_packet : Packet := {|
  fromId := py "!abcd";
  channel := None;
  decoded_text := Some (py "hi");
  portnum := py "TEXT_MESSAGE_APP";
|}.

(** Three rooms to join: one the client is in, one it is not in, and an
    alias that resolves; every [join] fails. *)
Definition example_rooms_config : Config := {|
  matrix_rooms := [ {| room_id := py "!in:example.org"; meshtastic_channel := 0 |};
                    {| room_id := py "#mesh:example.org"; meshtastic_channel := 1 |};
                    {| room_id := py "!out:example.org"; meshtastic_channel := 2 |} ];
  meshnet_name := py "MeshA";
  broadcast_enabled := true;
  bot_user_id := py "@relay:example.org";
  bot_start_time := 1000;
|}.

Definition example_client : MatrixClient := {|
  client_rooms := {[ py "!in:example.org" ]};
  resolve_room_alias := fun _ => RoomResolveAliasResponse (py "!mesh:example.org");
  join := fun _ => JoinRaises;
|}.

(* ===================================================================== *)
(** * Properties of the string primitives *)
(* ===================================================================== *)

(** Boolean tests on integers are settled by linear arithmetic, the
    quotients and remainders of the encoder by their defining equations. *)
Ltac decide_tests :=
  repeat match goal with
  | |- context [?a <? ?b] => destruct (Z.ltb_spec a b); try lia
  | |- context [?a <=? ?b] => destruct (Z.leb_spec a b); try lia
  | |- context [?a =? ?b] => destruct (Z.eqb_spec a b); try lia
  end; cbn [negb orb andb].

Ltac euclid := Z.div_mod_to_equations; lia.

Lemma utf8_decode_1 e b r :
  0 <= b < 0x80 -> utf8_decode e (b :: r) = emit b (utf8_decode e r).
Proof. intros. cbn [utf8_decode]. decide_tests. reflexivity. Qed.

Lemma utf8_decode_2 e b1 b2 r :
  0xC2 <= b1 < 0xE0 -> 0x80 <= b2 < 0xC0 ->
  utf8_decode e (b1 :: b2 :: r)
  = emit (b1 * 64 + b2 - 12416) (utf8_decode e r).
Proof.
  intros. cbn [utf8_decode]. unfold is_continuation. decide_tests. reflexivity.
Qed.

Lemma utf8_decode_3 e b1 b2 b3 r :
  0xE0 <= b1 < 0xF0 -> 0x80 <= b2 < 0xC0 -> 0x80 <= b3 < 0xC0 ->
  (b1 = 0xE0 -> 0xA0 <= b2) -> (b1 = 0xED -> b2 < 0xA0) ->
  utf8_decode e (b1 :: b2 :: b3 :: r)
  = emit (b1 * 4096 + b2 * 64 + b3 - 925824) (utf8_decode e r).
Proof.
  intros. cbn [utf8_decode]. unfold is_continuation. decide_tests; reflexivity.
Qed.

Lemma utf8_decode_4 e b1 b2 b3 b4 r :
  0xF0 <= b1 < 0xF5 -> 0x80 <= b2 < 0xC0 -> 0x80 <= b3 < 0xC0 ->
  0x80 <= b4 < 0xC0 ->
  (b1 = 0xF0 -> 0x90 <= b2) -> (b1 = 0xF4 -> b2 < 0x90) ->
  utf8_decode e (b1 :: b2 :: b3 :: b4 :: r)
  = emit (b1 * 262144 + b2 * 4096 + b3 * 64 + b4 - 63447168) (utf8_decode e r).
Proof.
  intros. cbn [utf8_decode]. unfold is_continuation. decide_tests; reflexivity.
Qed.

Lemma utf8_encode_char_shape c bs :
  utf8_encode_char c = Some bs -> encoded_char c bs.
Proof.
  unfold utf8_encode_char, encodable, is_surrogate.
  destruct (Z.leb_spec 0 c), (Z.leb_spec c 0x10FFFF),
    (Z.leb_spec 0xD800 c), (Z.leb_spec c 0xDFFF);
    cbn [negb andb]; try discriminate;
    destruct (Z.ltb_spec c 0x80), (Z.ltb_spec c 0x800),
      (Z.ltb_spec c 0x10000);
    intros [= <-]; try lia;
    solve [ apply Enc1; lia | eapply Enc2; eauto; lia
          | eapply Enc3; eauto; lia | eapply Enc4; eauto; lia ].
Qed.

Lemma utf8_encode_char_total c :
  encodable c = true -> exists bs, utf8_encode_char c = Some bs.
Proof.
  intros H. unfold utf8_encode_char. rewrite H. cbn [negb].
  repeat match goal with |- context [if ?b then _ else _] => destruct b end;
    eauto.
Qed.

Lemma utf8_encode_char_encodable c bs :
  utf8_encode_char c = Some bs -> encodable c = true.
Proof.
  unfold utf8_encode_char. destruct (encodable c); [reflexivity | discriminate].
Qed.

Lemma utf8_decode_encoded_char e c bs r :
  encoded_char c bs -> utf8_decode e (bs ++ r) = emit c (utf8_decode e r).
Proof.
  intros [H | b1 b2 H -> -> | b1 b2 b3 H Hs -> -> -> | b1 b2 b3 b4 H -> -> -> ->];
    cbn [app].
  - apply utf8_decode_1; lia.
  - rewrite utf8_decode_2 by euclid. f_equal. euclid.
  - rewrite utf8_decode_3 by euclid. f_equal. euclid.
  - rewrite utf8_decode_4 by euclid. f_equal. euclid.
Qed.

(** A sequence cut by the end of the data is dropped by [ignore]. *)
Lemma utf8_decode_cut c bs (n : nat) :
  encoded_char c bs -> (n < length bs)%nat ->
  utf8_decode Ignore (take n bs) = Some [].
Proof.
  intros [H | b1 b2 H -> -> | b1 b2 b3 H Hs -> -> -> | b1 b2 b3 b4 H -> -> -> ->];
    cbn [length]; intros Hn;
    do 4 (try destruct n as [|n]); try lia; cbn [take firstn utf8_decode];
    unfold is_continuation; try reflexivity.
  - decide_tests; try reflexivity; try euclid.
  - decide_tests; try reflexivity; try euclid.
  - decide_tests; try reflexivity; euclid.
  - decide_tests; try reflexivity; euclid.
  - decide_tests; try reflexivity; euclid.
  - decide_tests; try reflexivity; euclid.
Qed.

Lemma utf8_encode_cons c s bs :
  utf8_encode (c :: s) = Some bs ->
  exists b bs', utf8_encode_char c = Some b /\ utf8_encode s = Some bs'
                /\ bs = b ++ bs'.
Proof.
  cbn [utf8_encode]. destruct (utf8_encode_char c) as [b|]; [|discriminate].
  destruct (utf8_encode s) as [bs'|]; [|discriminate].
  intros [= <-]. eauto.
Qed.

Lemma utf8_encode_total s :
  Forall (fun c => encodable c = true) s -> exists bs, utf8_encode s = Some bs.
Proof.
  induction 1 as [|c s Hc _ [bs Hbs]]; [by exists []|].
  destruct (utf8_encode_char_total c Hc) as [b Hb].
  exists (b ++ bs). cbn [utf8_encode]. by rewrite Hb, Hbs.
Qed.

Lemma utf8_encode_encodable s bs :
  utf8_encode s = Some bs -> Forall (fun c => encodable c = true) s.
Proof.
  revert bs. induction s as [|c s IH]; intros bs H; [constructor|].
  apply utf8_encode_cons in H as (b & bs' & Hb & Hs & _).
  constructor; eauto using utf8_encode_char_encodable.
Qed.

(** Round trip: what [encode] produces, the strict decoder reads back. *)
Lemma utf8_decode_encode e s bs :
  utf8_encode s = Some bs -> utf8_decode e bs = Some s.
Proof.
  revert bs. induction s as [|c s IH]; intros bs H.
  - injection H as <-. reflexivity.
  - apply utf8_encode_cons in H as (b & bs' & Hb & Hs & ->).
    rewrite (utf8_decode_encoded_char e c b bs')
      by auto using utf8_encode_char_shape.
    by rewrite (IH _ Hs).
Qed.

(** Cutting an encoding after [n] bytes and decoding with [ignore] yields a
    prefix of the text, namely the code points that fit whole. *)
Lemma utf8_decode_take s bs (n : nat) :
  utf8_encode s = Some bs ->
  exists r rb,
    utf8_decode Ignore (take n bs) = Some r
    /\ r `prefix_of` s
    /\ utf8_encode r = Some rb
    /\ rb `prefix_of` take n bs.
Proof.
  revert bs n. induction s as [|c s IH]; intros bs n H.
  - injection H as <-. exists [], []. by rewrite take_nil.
  - apply utf8_encode_cons in H as (b & bs' & Hb & Hs & ->).
    pose proof (utf8_encode_char_shape _ _ Hb) as Hshape.
    destruct (decide (n < length b)%nat) as [Hlt|Hge].
    + exists [], []. rewrite take_app_le by lia.
      split; [eauto using utf8_decode_cut|].
      split; [apply prefix_nil|]. split; [done | apply prefix_nil].
    + destruct (IH bs' (n - length b)%nat Hs) as (r & rb & Hd & Hp & He & Hpb).
      exists (c :: r), (b ++ rb). rewrite take_app_ge by lia.
      rewrite (utf8_decode_encoded_char Ignore c b) by done.
      rewrite Hd. split; [done|]. split; [by apply prefix_cons|].
      split; [cbn [utf8_encode]; by rewrite Hb, He | by apply prefix_app].
Qed.

Lemma slice_to_nonneg {A} (l : list A) n :
  0 <= n -> slice_to l n = take (Z.to_nat n) l.
Proof. intros. unfold slice_to. by destruct (Z.leb_spec 0 n); [|lia]. Qed.

Lemma truncate_message_total text max_bytes :
  0 <= max_bytes ->
  Forall (fun c => encodable c = true) text ->
  exists r, truncate_message text max_bytes = Some r.
Proof.
  intros Hm Henc. unfold truncate_message.
  destruct (utf8_encode_total _ Henc) as [bs Hbs].
  rewrite Hbs, slice_to_nonneg by done.
  destruct (utf8_decode_take text bs (Z.to_nat max_bytes) Hbs)
    as (r & _ & Hr & _). eauto.
Qed.

Lemma truncate_message_result text max_bytes r :
  0 <= max_bytes ->
  truncate_message text max_bytes = Some r ->
  exists rb,
    utf8_encode r = Some rb
    /\ Z.of_nat (length rb) <= max_bytes
    /\ utf8_decode Strict rb = Some r
    /\ r `prefix_of` text.
Proof.
  intros Hm. unfold truncate_message.
  destruct (utf8_encode text) as [bs|] eqn:Hbs; [|discriminate].
  rewrite slice_to_nonneg by done. intros Hr.
  destruct (utf8_decode_take text bs (Z.to_nat max_bytes) Hbs)
    as (r' & rb & Hr' & Hp & He & Hpb).
  assert (r' = r) as -> by congruence.
  exists rb. split; [done|]. split.
  - apply prefix_length in Hpb. rewrite length_take in Hpb. lia.
  - split; [eauto using utf8_decode_encode | done].
Qed.

(** C4.  For every text and every [max_bytes >= 0], [truncate_message]
    returns on every text [encode] accepts, and whatever it returns has a
    UTF-8 encoding of at most [max_bytes] bytes that the strict decoder reads
    back to the same string; the result is a prefix of the text, so no
    character is split. *)
Theorem truncate_message_utf8_safe (text : pystr) (max_bytes : Z) :
  0 <= max_bytes ->
  (Forall (fun c => encodable c = true) text ->
   exists r, truncate_message text max_bytes = Some r)
  /\ (forall r, truncate_message text max_bytes = Some r ->
      exists rb,
        utf8_encode r = Some rb
        /\ Z.of_nat (length rb) <= max_bytes
        /\ utf8_decode Strict rb = Some r
        /\ r `prefix_of` text).
Proof.
  intros Hm. split.
  - by apply truncate_message_total.
  - intros r. by apply truncate_message_result.
Qed.

(** C4 at nine bytes of a text of eleven: the four-byte character that
    would be cut is dropped. *)
Lemma truncate_message_utf8_safe_witness :
  exists rb,
    utf8_encode [0x48; 0xE9; 0x20AC] = Some rb
    /\ Z.of_nat (length rb) <= 9
    /\ utf8_decode Strict rb = Some [0x48; 0xE9; 0x20AC]
    /\ [0x48; 0xE9; 0x20AC] `prefix_of` [0x48; 0xE9; 0x20AC; 0x1F600; 0x41].
Proof.
  apply (proj2 (truncate_message_utf8_safe
                  [0x48; 0xE9; 0x20AC; 0x1F600; 0x41] 9 ltac:(discriminate))).
  reflexivity.
Defined.

(** ** The pattern fragment *)

Lemma re_items_plain_app tag p its :
  forallb re_plain tag = true ->
  re_items p = Some its ->
  re_items (tag ++ p) = Some (map Lit tag ++ its).
Proof.
  intros Hplain Hp. induction tag as [|c tag IH]; [exact Hp|].
  cbn [forallb] in Hplain. apply andb_true_iff in Hplain as [Hc Htag].
  unfold re_plain in Hc. apply negb_true_iff in Hc.
  apply orb_false_iff in Hc as [[Hb Hd]%orb_false_iff Hop].
  cbn [app re_items map]. rewrite Hb, Hd, Hop, (IH Htag). reflexivity.
Qed.

Lemma match_items_literal s text :
  match_items (map Lit s) text
  = if bool_decide (s `prefix_of` text) then Some (drop (length s) text)
    else None.
Proof.
  revert text. induction s as [|c s IH]; intros text.
  - rewrite bool_decide_eq_true_2 by apply prefix_nil. by destruct text.
  - destruct text as [|d text]; cbn [map match_items item_matches].
    + rewrite bool_decide_eq_false_2; [done|]. apply prefix_nil_not.
    + destruct (Z.eqb_spec d c) as [->|Hne].
      * rewrite IH. cbn [length drop].
        destruct (decide (s `prefix_of` text)) as [Hp|Hp].
        -- rewrite !bool_decide_eq_true_2; [done | by apply prefix_cons | done].
        -- rewrite !bool_decide_eq_false_2; [done | | done].
           by intros ?%prefix_cons_inv_2.
      * rewrite bool_decide_eq_false_2; [done|].
        by intros ?%prefix_cons_inv_1.
Qed.

(** On a tag of plain characters the pattern removes the bracketed tag and
    nothing else. *)
Lemma strip_own_prefix_plain beyond text tag :
  forallb re_plain tag = true ->
  strip_own_prefix beyond text tag = ReOk (strip_literal_prefix text tag).
Proof.
  intros Hplain. unfold strip_own_prefix, strip_literal_prefix.
  change (py "^\[" ++ tag ++ py "\]: ")
    with (94 :: 92 :: 91 :: tag ++ py "\]: ").
  unfold re_sub_delete. rewrite Z.eqb_refl.
  change (re_items (92 :: 91 :: tag ++ py "\]: "))
    with (match re_items (tag ++ py "\]: ") with
          | Some its => Some (Lit 91 :: its)
          | None => None
          end).
  rewrite (re_items_plain_app tag (py "\]: ") (map Lit (py "]: ")))
    by done.
  change (Lit 91 :: map Lit tag ++ map Lit (py "]: "))
    with (map Lit [91] ++ map Lit tag ++ map Lit (py "]: ")).
  rewrite <- !map_app.
  change ([91] ++ tag ++ py "]: ") with (py "[" ++ tag ++ py "]: ").
  rewrite match_items_literal.
  by case_bool_decide.
Qed.

(** The example of the spec. *)
Lemma strip_own_prefix_alice beyond :
  strip_own_prefix beyond (py "[Alice/MeshA]: hello") (py "Alice/MeshA")
  = ReOk (py "hello").
Proof. reflexivity. Qed.

(** C9, where the code departs from it.  With the tag [B.b/MeshB] the text
    [[Bxb/MeshB]: yo] does not start with the bracketed tag, so the spec's
    stripping leaves it alone; the pattern built from the tag reads the dot
    as "any character" and removes the other tag. *)
Theorem strip_own_prefix_dotted_tag beyond :
  ~ (py "[B.b/MeshB]: " `prefix_of` py "[Bxb/MeshB]: yo")
  /\ strip_literal_prefix (py "[Bxb/MeshB]: yo") (py "B.b/MeshB")
     = py "[Bxb/MeshB]: yo"
  /\ strip_own_prefix beyond (py "[Bxb/MeshB]: yo") (py "B.b/MeshB")
     = ReOk (py "yo").
Proof.
  split; [|split]; [|reflexivity..].
  intros [k Hk]. discriminate Hk.
Qed.


(* ===================================================================== *)
(** * Properties of the chat-to-radio callback *)
(* ===================================================================== *)

(** ** The monad *)

Lemma trace_bind {A B} (m : M A) (k : A -> M B) a :
  outcome m = Ret a -> trace (bind m k) = trace m ++ trace (k a).
Proof.
  destruct m as [t [a'|e]]; cbn; [|discriminate].
  intros [= ->]. by destruct (k a).
Qed.

Lemma outcome_bind {A B} (m : M A) (k : A -> M B) a :
  outcome m = Ret a -> outcome (bind m k) = outcome (k a).
Proof.
  destruct m as [t [a'|e]]; cbn; [|discriminate].
  intros [= ->]. by destruct (k a).
Qed.

Lemma bind_raise {A B} (m : M A) (k : A -> M B) e :
  outcome m = Raise e -> bind m k = (trace m, Raise e).
Proof. destruct m as [t [a'|e']]; cbn; [discriminate|]. by intros [= ->]. Qed.

Lemma bind_pair_ret {A B} t (a : A) (k : A -> M B) :
  bind (t, Ret a) k = (t ++ trace (k a), outcome (k a)).
Proof. cbn. by destruct (k a). Qed.

Lemma radio_sends_app l1 l2 :
  radio_sends (l1 ++ l2) = radio_sends l1 ++ radio_sends l2.
Proof. apply flat_map_app. Qed.

Lemma plugins_handled_app l1 l2 :
  plugins_handled (l1 ++ l2) = plugins_handled l1 ++ plugins_handled l2.
Proof. apply flat_map_app. Qed.

(** ** The plugin loop of [on_room_message] *)

Section room_plugins.
Variables (room : pystr) (ev : Event) (full_message : pystr).

Lemma dispatch_room_plugins_returns plugins :
  Forall (fun p => handle_room_message p room ev full_message = Returns)
    plugins ->
  dispatch_room_plugins plugins room ev full_message
  = (room_plugin_calls room ev full_message plugins, Ret tt).
Proof.
  induction 1 as [|p plugins Hp _ IH]; [reflexivity|].
  unfold dispatch_room_plugins in *. cbn [for_each].
  rewrite Hp, IH. reflexivity.
Qed.

Lemma dispatch_room_plugins_raises plugins1 p plugins2 :
  Forall (fun q => handle_room_message q room ev full_message = Returns)
    plugins1 ->
  handle_room_message p room ev full_message = Raises ->
  dispatch_room_plugins (plugins1 ++ p :: plugins2) room ev full_message
  = (room_plugin_calls room ev full_message (plugins1 ++ [p]),
     Raise (PluginError p)).
Proof.
  intros H Hp. induction H as [|q plugins1 Hq _ IH].
  - unfold dispatch_room_plugins. cbn [app for_each]. rewrite Hp.
    reflexivity.
  - unfold dispatch_room_plugins in *. cbn [app for_each].
    rewrite Hq, IH. reflexivity.
Qed.

Lemma radio_sends_calls plugins :
  radio_sends (room_plugin_calls room ev full_message plugins) = [].
Proof. induction plugins; [reflexivity | assumption]. Qed.

Lemma plugins_handled_calls plugins :
  plugins_handled (room_plugin_calls room ev full_message plugins) = plugins.
Proof.
  induction plugins as [|p l IH]; [reflexivity|].
  change (plugins_handled (room_plugin_calls room ev full_message (p :: l)))
    with (p :: plugins_handled (room_plugin_calls room ev full_message l)).
  by rewrite IH.
Qed.
End room_plugins.


Lemma format_chat_origin_trace w ev text :
  trace (format_chat_origin w ev text) = [GetDisplayname (sender ev)].
Proof.
  unfold format_chat_origin, truncate_or_raise.
  destruct (get_displayname w (sender ev)); [|reflexivity].
  by destruct (truncate_message _ _).
Qed.

Lemma format_remote_meshnet_trace w longname meshnet text :
  trace (format_remote_meshnet w longname meshnet text) = [].
Proof.
  unfold format_remote_meshnet, truncate_or_raise.
  destruct (strip_own_prefix _ _ _); [|reflexivity].
  by destruct (truncate_message _ _).
Qed.

Lemma format_room_message_trace w cfg ev :
  trace (format_room_message w cfg ev) = []
  \/ trace (format_room_message w cfg ev) = [GetDisplayname (sender ev)].
Proof.
  unfold format_room_message.
  destruct (meshtastic_longname ev) as [[|l ls]|],
    (meshtastic_meshnet ev) as [[|m ms]|];
    auto using format_chat_origin_trace.
  left. case_bool_decide; [apply format_remote_meshnet_trace | reflexivity].
Qed.

Lemma format_room_message_quiet w cfg ev :
  radio_sends (trace (format_room_message w cfg ev)) = []
  /\ plugins_handled (trace (format_room_message w cfg ev)) = [].
Proof. by destruct (format_room_message_trace w cfg ev) as [-> | ->]. Qed.


(** C5.  An event whose [server_timestamp] is not after the start of the
    process makes [on_room_message] do nothing at all: no plugin is
    configured or called and nothing is sent to the radio. *)
Theorem on_room_message_backlog w cfg plugins room ev :
  server_timestamp ev <= bot_start_time cfg ->
  on_room_message w cfg plugins room ev = ([], Ret tt).
Proof.
  intros Hts. unfold on_room_message.
  destruct (Z.ltb_spec (bot_start_time cfg) (server_timestamp ev)); [lia|].
  by case_bool_decide.
Qed.

(** C5 at an event stamped with the very millisecond the process
    started. *)
Lemma on_room_message_backlog_witness :
  on_room_message example_world example_config [failing_plugin]
    (py "!room1") backlog_event = ([], Ret tt).
Proof.
  apply on_room_message_backlog. vm_compute. discriminate.
Defined.

(** C1 fails as stated: an event that names the local meshnet but has no
    longname is taken for a chat user's message and sent to the radio. *)
Lemma nameless_local_event_relayed :
  meshtastic_meshnet nameless_local_event = Some (meshnet_name example_config)
  /\ radio_sends (trace (on_room_message example_world example_config []
                           (py "!room1") nameless_local_event))
     = [(py "Alice[M]: hello", 0)].
Proof. split; vm_compute; reflexivity. Qed.

(** C1, amended.  An event with a non-empty longname and a non-empty
    meshnet name equal to the local one makes [on_room_message] do nothing
    at all, whatever its other fields. *)
Theorem on_room_message_own_relay_dropped w cfg plugins room ev :
  truthy (meshtastic_longname ev) = true ->
  truthy (meshtastic_meshnet ev) = true ->
  meshtastic_meshnet ev = Some (meshnet_name cfg) ->
  on_room_message w cfg plugins room ev = ([], Ret tt).
Proof.
  intros Hl Hm Hlocal. unfold on_room_message, format_room_message.
  rewrite Hlocal in *.
  destruct (meshtastic_longname ev) as [[|l ls]|]; try discriminate.
  destruct (meshnet_name cfg) as [|m ms]; try discriminate.
  case_bool_decide; [|reflexivity].
  destruct (_ <? _); [|reflexivity].
  case_bool_decide; [congruence | reflexivity].
Qed.

(** C1, amended, at a message this relay sent itself. *)
Lemma on_room_message_own_relay_dropped_witness :
  on_room_message example_world example_config [quiet_plugin]
    (py "!room1") own_event = ([], Ret tt).
Proof.
  apply on_room_message_own_relay_dropped; reflexivity.
Defined.


(** C2 fails as stated: the text sent is [Bob/Mesh: yo], the meshnet name
    being cut to four characters, and not [Bob/MeshB: yo]. *)
Lemma remote_event_sent_text :
  radio_sends (trace (on_room_message example_world example_config []
                        (py "!room1") remote_event))
  = [(py "Bob/Mesh: yo", 0)]
  /\ radio_sends (trace (on_room_message example_world example_config []
                           (py "!room1") remote_event))
     <> [(py "Bob/MeshB: yo", 0)]
  /\ radio_sends (trace (on_room_message example_world
                           example_config_no_broadcast []
                           (py "!room1") remote_event))
     = [].
Proof. repeat split; vm_compute; (reflexivity || discriminate). Qed.

Lemma format_remote_bob w cfg ev :
  meshtastic_longname ev = Some (py "Bob") ->
  meshtastic_meshnet ev = Some (py "MeshB") ->
  body ev = py "[Bob/MeshB]: yo" ->
  meshnet_name cfg <> py "MeshB" ->
  format_room_message w cfg ev = ([], Ret (Some (py "Bob/Mesh: yo"))).
Proof.
  intros Hl Hm Hb Hlocal. unfold format_room_message.
  rewrite Hl, Hm, Hb. cbn [py list_ascii_of_string map].
  match goal with |- context [bool_decide ?P] =>
    rewrite (bool_decide_eq_true_2 P)
  end; [vm_compute; reflexivity|].
  intros Heq. apply Hlocal. rewrite <- Heq. reflexivity.
Qed.

(** C2, amended.  For the event of remote meshnet MeshB with longname Bob
    and body [[Bob/MeshB]: yo], newer than the process, from another sender
    than the bot, in a mapped room and with every plugin handler returning:
    the radio gets exactly [Bob/Mesh: yo] on the room's channel when
    broadcast is enabled, and nothing when it is not. *)
Theorem remote_meshnet_relay w cfg plugins room ev config :
  sender ev <> bot_user_id cfg ->
  bot_start_time cfg < server_timestamp ev ->
  meshtastic_longname ev = Some (py "Bob") ->
  meshtastic_meshnet ev = Some (py "MeshB") ->
  body ev = py "[Bob/MeshB]: yo" ->
  meshnet_name cfg <> py "MeshB" ->
  find_room_config cfg room = Some config ->
  Forall (fun p => handle_room_message p room ev (py "Bob/Mesh: yo") = Returns)
    plugins ->
  radio_sends (trace (on_room_message w cfg plugins room ev))
  = if broadcast_enabled cfg
    then [(py "Bob/Mesh: yo", meshtastic_channel config)]
    else [].
Proof.
  intros Hs Hts Hl Hm Hb Hlocal Hroom Hplugins. unfold on_room_message.
  rewrite bool_decide_eq_true_2 by done.
  destruct (Z.ltb_spec (bot_start_time cfg) (server_timestamp ev)); [|lia].
  rewrite (format_remote_bob w cfg ev) by done.
  rewrite bind_pair_ret, Hroom.
  rewrite (dispatch_room_plugins_returns _ _ _ _ Hplugins).
  rewrite bind_pair_ret. cbn [trace fst app].
  rewrite radio_sends_app, radio_sends_calls.
  by destruct (broadcast_enabled cfg).
Qed.

(** C2, amended, in the sample configuration. *)
Lemma remote_meshnet_relay_witness :
  radio_sends (trace (on_room_message example_world example_config
                        [quiet_plugin] (py "!room1") remote_event))
  = [(py "Bob/Mesh: yo", 0)].
Proof.
  apply (remote_meshnet_relay example_world example_config [quiet_plugin]
           (py "!room1") remote_event
           {| room_id := py "!room1"; meshtastic_channel := 0 |});
    try reflexivity; try (vm_compute; discriminate).
  repeat constructor.
Defined.

(** ** What reaches the radio *)

Lemma utf8_encode_app s1 s2 bs :
  utf8_encode (s1 ++ s2) = Some bs ->
  exists b1 b2, utf8_encode s1 = Some b1 /\ utf8_encode s2 = Some b2
                /\ bs = b1 ++ b2.
Proof.
  revert bs. induction s1 as [|c s1 IH]; intros bs H.
  - exists [], bs. by cbn in *.
  - rewrite <- app_comm_cons in H.
    apply utf8_encode_cons in H as (b & bs' & Hb & Hs & ->).
    destruct (IH _ Hs) as (b1 & b2 & H1 & H2 & ->).
    exists (b ++ b1), b2. cbn [utf8_encode]. rewrite Hb, H1.
    by rewrite app_assoc.
Qed.

Lemma dispatch_room_plugins_radio_sends plugins room ev full_message :
  radio_sends (trace (dispatch_room_plugins plugins room ev full_message)) = [].
Proof.
  unfold dispatch_room_plugins.
  induction plugins as [|p plugins IH]; [reflexivity|].
  cbn [for_each].
  destruct (handle_room_message p room ev full_message); [|reflexivity].
  cbn [act bind ret app].
  destruct (for_each plugins _) as [t o]. cbn [trace fst] in *.
  destruct o; cbn; exact IH.
Qed.

Lemma on_room_message_radio_sends w cfg plugins room ev text ch :
  (text, ch) ∈ radio_sends (trace (on_room_message w cfg plugins room ev)) ->
  outcome (format_room_message w cfg ev) = Ret (Some text).
Proof.
  unfold on_room_message.
  case_bool_decide; [|by intros ?%elem_of_nil].
  destruct (_ <? _); [|by intros ?%elem_of_nil].
  pose proof (format_room_message_quiet w cfg ev) as [Hq _].
  destruct (format_room_message w cfg ev) as [t [[fm|]|e]];
    cbn [trace fst outcome snd] in *.
  - rewrite bind_pair_ret. cbn [trace fst]. rewrite radio_sends_app, Hq.
    pose proof (dispatch_room_plugins_radio_sends plugins room ev fm) as Hd.
    destruct (dispatch_room_plugins plugins room ev fm) as [t' [[]|e]];
      cbn [trace fst] in Hd.
    + rewrite bind_pair_ret. cbn [trace fst]. rewrite radio_sends_app, Hd.
      destruct (find_room_config cfg room) as [config|];
        [|by intros ?%elem_of_nil].
      destruct (broadcast_enabled cfg); [|by intros ?%elem_of_nil].
      cbn. intros [= -> ->]%list_elem_of_singleton. reflexivity.
    + cbn [bind trace fst]. rewrite Hd. by intros ?%elem_of_nil.
  - rewrite bind_pair_ret. cbn [trace fst ret]. rewrite radio_sends_app, Hq.
    by intros ?%elem_of_nil.
  - cbn [bind trace fst]. rewrite Hq. by intros ?%elem_of_nil.
Qed.

Lemma truncate_or_raise_ret body' t :
  outcome (truncate_or_raise body') = Ret t ->
  truncate_message body' default_max_bytes = Some t.
Proof.
  unfold truncate_or_raise.
  destruct (truncate_message body' default_max_bytes); cbn; congruence.
Qed.

Lemma format_chat_origin_some w ev text full_message :
  outcome (format_chat_origin w ev text) = Ret (Some full_message) ->
  exists displayname truncated,
    get_displayname w (sender ev) = ProfileGetDisplayNameResponse displayname
    /\ full_message = (slice_to (or_else displayname (sender ev)) 5
                       ++ py "[M]: ") ++ truncated
    /\ truncate_message text default_max_bytes = Some truncated.
Proof.
  unfold format_chat_origin, truncate_or_raise.
  destruct (get_displayname w (sender ev)) as [dn|]; [|discriminate].
  destruct (truncate_message text default_max_bytes) as [t|]; [|discriminate].
  cbn [act ret bind outcome snd]. intros [= <-]. exists dn, t.
  split; [reflexivity|]. split; [|reflexivity].
  by rewrite <- app_assoc.
Qed.

Lemma format_remote_meshnet_some w longname meshnet text full_message :
  outcome (format_remote_meshnet w longname meshnet text)
  = Ret (Some full_message) ->
  exists body' truncated,
    strip_own_prefix (re_beyond w) text (longname ++ py "/" ++ meshnet)
    = ReOk body'
    /\ full_message = (slice_to longname 3 ++ py "/" ++ slice_to meshnet 4
                       ++ py ": ") ++ truncated
    /\ truncate_message body' default_max_bytes = Some truncated.
Proof.
  unfold format_remote_meshnet, truncate_or_raise.
  destruct (strip_own_prefix _ _ _) as [body'|]; [|discriminate].
  destruct (truncate_message body' default_max_bytes) as [t|] eqn:Ht;
    [|discriminate].
  cbn [ret bind outcome snd]. intros [= <-]. exists body', t.
  split; [reflexivity|]. split; [reflexivity | exact Ht].
Qed.

Lemma format_room_message_some w cfg ev full_message :
  outcome (format_room_message w cfg ev) = Ret (Some full_message) ->
  exists prefix body' truncated,
    full_message = prefix ++ truncated
    /\ truncate_message body' default_max_bytes = Some truncated
    /\ ((exists longname meshnet,
           meshtastic_longname ev = Some longname
           /\ meshtastic_meshnet ev = Some meshnet
           /\ prefix = slice_to longname 3 ++ py "/" ++ slice_to meshnet 4
                       ++ py ": "
           /\ strip_own_prefix (re_beyond w) (strip (body ev))
                (longname ++ py "/" ++ meshnet) = ReOk body')
        \/ (exists displayname,
              get_displayname w (sender ev)
              = ProfileGetDisplayNameResponse displayname
              /\ prefix = slice_to (or_else displayname (sender ev)) 5
                          ++ py "[M]: "
              /\ body' = strip (body ev))).
Proof.
  unfold format_room_message.
  destruct (meshtastic_longname ev) as [[|l ls]|] eqn:Hl,
    (meshtastic_meshnet ev) as [[|m ms]|] eqn:Hm;
    try (intros (dn & t & Hdn & -> & Ht)%format_chat_origin_some;
         eexists _, _, t; split; [reflexivity|]; split; [exact Ht|];
         right; by exists dn).
  case_bool_decide; [|discriminate].
  intros (body' & t & Hre & -> & Ht)%format_remote_meshnet_some.
  eexists _, body', t. split; [reflexivity|]. split; [exact Ht|].
  left. by exists (l :: ls), (m :: ms).
Qed.

(** C10.  Every text [on_room_message] hands to the radio is a short-form
    prefix followed by the body truncated to 227 bytes: the prefix is made
    of the first 3 and 4 characters of longname and meshnet name for a
    remote message, of the first 5 characters of the display name for a chat
    user's, and the body is the stripped text (less the bracketed tag in the
    remote case).  The truncation comes before the prefix, so the encoded
    message is bounded by 227 bytes plus the prefix, and a chat user's
    message of 300 bytes goes out with more than 227. *)
Theorem radio_text_is_prefix_and_truncated_body :
  (forall w cfg plugins room ev text ch,
     (text, ch) ∈ radio_sends (trace (on_room_message w cfg plugins room ev)) ->
     exists prefix body' truncated,
       text = prefix ++ truncated
       /\ truncate_message body' 227 = Some truncated
       /\ ((exists longname meshnet,
              meshtastic_longname ev = Some longname
              /\ meshtastic_meshnet ev = Some meshnet
              /\ prefix = slice_to longname 3 ++ py "/" ++ slice_to meshnet 4
                          ++ py ": "
              /\ strip_own_prefix (re_beyond w) (strip (body ev))
                   (longname ++ py "/" ++ meshnet) = ReOk body')
           \/ (exists displayname,
                 get_displayname w (sender ev)
                 = ProfileGetDisplayNameResponse displayname
                 /\ prefix = slice_to (or_else displayname (sender ev)) 5
                             ++ py "[M]: "
                 /\ body' = strip (body ev)))
       /\ (forall tb, utf8_encode text = Some tb ->
           exists pb, utf8_encode prefix = Some pb
                      /\ (length tb <= length pb + 227)%nat))
  /\ (exists tb,
        radio_sends (trace (on_room_message example_world example_config []
                              (py "!room1") long_event))
        = [(py "Alice[M]: " ++ repeat 97 227, 0)]
        /\ utf8_encode (py "Alice[M]: " ++ repeat 97 227) = Some tb
        /\ (227 < length tb)%nat).
Proof.
  split.
  - intros w cfg plugins room ev text ch Hsent.
    apply on_room_message_radio_sends in Hsent.
    apply format_room_message_some in Hsent
      as (prefix & body' & truncated & -> & Ht & Hshape).
    exists prefix, body', truncated.
    split; [reflexivity|]. split; [exact Ht|]. split; [exact Hshape|].
    intros tb (pb & rb & Hpb & Hrb & ->)%utf8_encode_app.
    exists pb. split; [exact Hpb|].
    apply truncate_message_result in Ht as (rb' & Hrb' & Hlen & _);
      [|discriminate].
    assert (rb' = rb) as -> by congruence.
    rewrite length_app. unfold default_max_bytes in Hlen. lia.
  - eexists. split; [vm_compute; reflexivity|].
    split; [vm_compute; reflexivity|]. vm_compute. lia.
Qed.

(** C10 at the message from meshnet MeshB: prefix [Bob/Mesh: ] and body
    [yo]. *)
Lemma radio_text_is_prefix_and_truncated_body_witness :
  exists prefix body' truncated,
    py "Bob/Mesh: yo" = prefix ++ truncated
    /\ truncate_message body' 227 = Some truncated
    /\ ((exists longname meshnet,
           meshtastic_longname remote_event = Some longname
           /\ meshtastic_meshnet remote_event = Some meshnet
           /\ prefix = slice_to longname 3 ++ py "/" ++ slice_to meshnet 4
                       ++ py ": "
           /\ strip_own_prefix (re_beyond example_world)
                (strip (body remote_event)) (longname ++ py "/" ++ meshnet)
              = ReOk body')
        \/ (exists displayname,
              get_displayname example_world (sender remote_event)
              = ProfileGetDisplayNameResponse displayname
              /\ prefix = slice_to (or_else displayname (sender remote_event)) 5
                          ++ py "[M]: "
              /\ body' = strip (body remote_event)))
    /\ (forall tb, utf8_encode (py "Bob/Mesh: yo") = Some tb ->
        exists pb, utf8_encode prefix = Some pb
                   /\ (length tb <= length pb + 227)%nat).
Proof.
  apply (proj1 radio_text_is_prefix_and_truncated_body example_world
           example_config [] (py "!room1") remote_event (py "Bob/Mesh: yo") 0).
  apply (list_elem_of_here (py "Bob/Mesh: yo", 0) []).
Defined.

(* ===================================================================== *)
(** * Properties of the radio-to-chat callback *)
(* ===================================================================== *)

(** ** Radio to chat *)

Lemma channel_mapped_false cfg ch :
  channel_mapped cfg ch = false
  <-> forall rc, rc ∈ matrix_rooms cfg -> meshtastic_channel rc <> ch.
Proof.
  unfold channel_mapped. induction (matrix_rooms cfg) as [|rc l IH];
    cbn [existsb].
  - split; [intros _ rc H; by apply elem_of_nil in H | done].
  - rewrite orb_false_iff, IH, Z.eqb_neq. split.
    + intros [Hrc Hl] rc' [->|H]%elem_of_cons; auto.
    + intros H. split; [apply H; left | intros rc' Hrc'; apply H; by right].
Qed.

Lemma rooms_for_channel_unmapped cfg ch :
  channel_mapped cfg ch = false -> rooms_for_channel cfg ch = [].
Proof.
  rewrite channel_mapped_false. unfold rooms_for_channel. intros H.
  induction (matrix_rooms cfg) as [|rc l IH]; [reflexivity|].
  rewrite filter_cons_False by (apply H; left).
  apply IH. intros rc' Hrc'. apply H. by right.
Qed.

Lemma on_meshtastic_message_text cfg db plugins packet c s ch :
  decoded_text packet = Some (c :: s) ->
  packet_channel packet = Some ch ->
  on_meshtastic_message cfg db plugins packet
  = if channel_mapped cfg ch then
      let longname := or_else (get_longname db (fromId packet)) (fromId packet) in
      let fm := py "[" ++ longname ++ py "/" ++ meshnet_name cfg ++ py "]: "
                ++ c :: s in
      plugin_schedule packet fm longname (meshnet_name cfg) plugins
      ++ room_schedule ch fm longname (meshnet_name cfg) (matrix_rooms cfg)
    else [].
Proof.
  intros Ht Hc. unfold on_meshtastic_message. rewrite Ht, Hc.
  by destruct (channel_mapped cfg ch).
Qed.

Lemma relays_scheduled_app l1 l2 :
  relays_scheduled (l1 ++ l2) = relays_scheduled l1 ++ relays_scheduled l2.
Proof. apply flat_map_app. Qed.

Lemma plugins_scheduled_app l1 l2 :
  plugins_scheduled (l1 ++ l2) = plugins_scheduled l1 ++ plugins_scheduled l2.
Proof. apply flat_map_app. Qed.

Lemma run_loop_app l1 l2 : run_loop (l1 ++ l2) = run_loop l1 ++ run_loop l2.
Proof. apply flat_map_app. Qed.

Section schedules.
Variables (packet : Packet) (ch : Z) (fm ln mn : pystr).

Lemma relays_scheduled_plugins plugins :
  relays_scheduled (plugin_schedule packet fm ln mn plugins) = [].
Proof. induction plugins; [reflexivity | assumption]. Qed.

Lemma plugins_scheduled_plugins plugins :
  plugins_scheduled (plugin_schedule packet fm ln mn plugins) = plugins.
Proof.
  induction plugins as [|p l IH]; [reflexivity|].
  change (plugins_scheduled (plugin_schedule packet fm ln mn (p :: l)))
    with (p :: plugins_scheduled (plugin_schedule packet fm ln mn l)).
  by rewrite IH.
Qed.

(** Whatever the handlers do, running them sends nothing to a room. *)
Lemma run_loop_plugins plugins :
  run_loop (plugin_schedule packet fm ln mn plugins) = [].
Proof.
  induction plugins as [|p l IH]; [reflexivity|].
  change (run_loop (plugin_schedule packet fm ln mn (p :: l)))
    with (trace (run_coroutine (PluginCoroutine p packet fm ln mn))
          ++ run_loop (plugin_schedule packet fm ln mn l)).
  rewrite IH. cbn [run_coroutine].
  by destruct (handle_meshtastic_message p packet fm ln mn).
Qed.

Lemma relays_scheduled_rooms rooms :
  relays_scheduled (room_schedule ch fm ln mn rooms)
  = map (fun rc => MatrixRelay (room_id rc) fm ln mn)
      (filter (fun rc => meshtastic_channel rc = ch) rooms).
Proof.
  induction rooms as [|rc l IH]; [reflexivity|].
  unfold room_schedule in *. cbn [flat_map].
  rewrite relays_scheduled_app, IH.
  destruct (Z.eqb_spec (meshtastic_channel rc) ch) as [Heq|Hne].
  - by rewrite filter_cons_True.
  - by rewrite filter_cons_False.
Qed.

Lemma plugins_scheduled_rooms rooms :
  plugins_scheduled (room_schedule ch fm ln mn rooms) = [].
Proof.
  induction rooms as [|rc l IH]; [reflexivity|].
  unfold room_schedule in *. cbn [flat_map].
  rewrite plugins_scheduled_app, IH. by destruct (_ =? _).
Qed.

Lemma run_loop_rooms rooms :
  run_loop (room_schedule ch fm ln mn rooms)
  = map (fun rc => RoomSend (room_id rc) (py "m.room.message")
                     {| msgtype := py "m.text"; content_body := fm;
                        content_longname := ln; content_meshnet := mn |})
      (filter (fun rc => meshtastic_channel rc = ch) rooms).
Proof.
  induction rooms as [|rc l IH]; [reflexivity|].
  unfold room_schedule in *. cbn [flat_map].
  rewrite run_loop_app, IH.
  destruct (Z.eqb_spec (meshtastic_channel rc) ch) as [Heq|Hne].
  - by rewrite filter_cons_True.
  - by rewrite filter_cons_False.
Qed.
End schedules.

Lemma rooms_sent_to_sends {A} (f : A -> pystr) mt (g : A -> Content) l :
  rooms_sent_to (map (fun x => RoomSend (f x) mt (g x)) l) = map f l.
Proof.
  unfold rooms_sent_to, room_sends.
  induction l as [|x l IH]; [reflexivity | cbn in *; by rewrite IH].
Qed.

Lemma on_meshtastic_message_unmapped cfg db plugins packet c s ch :
  decoded_text packet = Some (c :: s) ->
  packet_channel packet = Some ch ->
  channel_mapped cfg ch = false ->
  on_meshtastic_message cfg db plugins packet = [].
Proof.
  intros Ht Hc Hm. by rewrite (on_meshtastic_message_text _ _ _ _ _ _ _ Ht Hc), Hm.
Qed.

Lemma on_meshtastic_message_rooms_sent cfg db plugins packet c s ch :
  decoded_text packet = Some (c :: s) ->
  packet_channel packet = Some ch ->
  rooms_sent_to (run_loop (on_meshtastic_message cfg db plugins packet))
  = map room_id (rooms_for_channel cfg ch).
Proof.
  intros Ht Hc. rewrite (on_meshtastic_message_text _ _ _ _ _ _ _ Ht Hc).
  destruct (channel_mapped cfg ch) eqn:Hmapped.
  - cbv zeta. rewrite run_loop_app, run_loop_plugins, run_loop_rooms.
    apply rooms_sent_to_sends.
  - by rewrite rooms_for_channel_unmapped.
Qed.

(** C6.  For a text packet on channel [ch]: if no configured room has that
    channel nothing is scheduled, and in every case the rooms sent to are
    the configured rooms of that channel, those and no others. *)
Theorem on_meshtastic_message_rooms cfg db plugins packet c s ch :
  decoded_text packet = Some (c :: s) ->
  packet_channel packet = Some ch ->
  ((forall rc, rc ∈ matrix_rooms cfg -> meshtastic_channel rc <> ch) ->
   on_meshtastic_message cfg db plugins packet = [])
  /\ rooms_sent_to (run_loop (on_meshtastic_message cfg db plugins packet))
     = map room_id (rooms_for_channel cfg ch)
  /\ (forall room,
        room ∈ rooms_sent_to
                 (run_loop (on_meshtastic_message cfg db plugins packet))
        <-> exists rc, rc ∈ matrix_rooms cfg
                       /\ meshtastic_channel rc = ch /\ room_id rc = room).
Proof.
  intros Ht Hc. split; [|split].
  - intros Hun. apply channel_mapped_false in Hun.
    eauto using on_meshtastic_message_unmapped.
  - eauto using on_meshtastic_message_rooms_sent.
  - intros room. rewrite (on_meshtastic_message_rooms_sent _ _ _ _ _ _ _ Ht Hc).
    unfold rooms_for_channel. rewrite list_elem_of_fmap. split.
    + intros (rc & -> & [Hch Hin]%list_elem_of_filter). eauto.
    + intros (rc & Hin & Hch & <-). exists rc. split; [done|].
      by apply list_elem_of_filter.
Qed.

(** C6 on channel 5, which no room has, and on channel 0. *)
Lemma on_meshtastic_message_rooms_witness :
  on_meshtastic_message example_config example_db [quiet_plugin]
    channel5_packet = []
  /\ rooms_sent_to
       (run_loop (on_meshtastic_message example_config example_db
                    [quiet_plugin] (alice_packet (py "TEXT_MESSAGE_APP"))))
     = [py "!room1"].
Proof.
  split.
  - apply (on_meshtastic_message_rooms example_config example_db
             [quiet_plugin] channel5_packet 104 [105] 5 eq_refl eq_refl).
    intros rc [-> | H]%elem_of_cons; [discriminate|].
    by apply elem_of_nil in H.
  - apply (on_meshtastic_message_rooms example_config example_db
             [quiet_plugin] (alice_packet (py "TEXT_MESSAGE_APP"))
             104 [105] 0 eq_refl eq_refl).
Defined.

Lemma channel_mapped_rooms cfg ch :
  rooms_for_channel cfg ch <> [] -> channel_mapped cfg ch = true.
Proof.
  intros H. destruct (channel_mapped cfg ch) eqn:Hm; [reflexivity|].
  by apply rooms_for_channel_unmapped in Hm.
Qed.

(** C7.  The packet from [!abcd] on channel 0 with text [hi], channel 0
    being mapped to [!room1] alone, the cache knowing [!abcd] as Alice and
    the local meshnet being MeshA: one relay is scheduled, and it sends
    [[Alice/MeshA]: hi] to [!room1] with the two provenance fields. *)
Theorem radio_packet_end_to_end cfg db plugins pn :
  map room_id (rooms_for_channel cfg 0) = [py "!room1"] ->
  db !! py "!abcd" = Some (py "Alice") ->
  meshnet_name cfg = py "MeshA" ->
  relays_scheduled (on_meshtastic_message cfg db plugins (alice_packet pn))
  = [MatrixRelay (py "!room1") (py "[Alice/MeshA]: hi")
       (py "Alice") (py "MeshA")]
  /\ run_loop (on_meshtastic_message cfg db plugins (alice_packet pn))
     = [RoomSend (py "!room1") (py "m.room.message")
          {| msgtype := py "m.text";
             content_body := py "[Alice/MeshA]: hi";
             content_longname := py "Alice";
             content_meshnet := py "MeshA" |}].
Proof.
  intros Hrooms Hdb Hmesh.
  rewrite (on_meshtastic_message_text cfg db plugins (alice_packet pn)
             104 [105] 0) by reflexivity.
  rewrite channel_mapped_rooms by (intros H; by rewrite H in Hrooms).
  unfold get_longname. cbn [fromId alice_packet]. rewrite Hdb, Hmesh.
  cbv zeta.
  change (or_else (Some (py "Alice")) (py "!abcd")) with (py "Alice").
  change (py "[" ++ py "Alice" ++ py "/" ++ py "MeshA" ++ py "]: " ++ [104; 105])
    with (py "[Alice/MeshA]: hi").
  rewrite relays_scheduled_app, relays_scheduled_plugins,
    relays_scheduled_rooms.
  rewrite run_loop_app, run_loop_plugins, run_loop_rooms.
  fold (rooms_for_channel cfg 0).
  destruct (rooms_for_channel cfg 0) as [|rc [|rc' l]]; try discriminate.
  injection Hrooms as Hrc. cbn [app map]. by rewrite Hrc.
Qed.

(** C7 in the sample configuration, with a plugin whose handler raises. *)
Lemma radio_packet_end_to_end_witness :
  run_loop (on_meshtastic_message example_config example_db [failing_plugin]
              (alice_packet (py "TEXT_MESSAGE_APP")))
  = [RoomSend (py "!room1") (py "m.room.message")
       {| msgtype := py "m.text";
          content_body := py "[Alice/MeshA]: hi";
          content_longname := py "Alice";
          content_meshnet := py "MeshA" |}].
Proof.
  apply (radio_packet_end_to_end example_config example_db [failing_plugin]
           (py "TEXT_MESSAGE_APP")).
  - reflexivity.
  - apply lookup_insert_eq.
  - reflexivity.
Defined.


(** C8 fails as stated: the callback looks for a text, not at the port
    number, so a packet with a text and a channel is relayed under any port
    number. *)
Lemma telemetry_text_packet_relayed :
  portnum telemetry_text_packet <> py "TEXT_MESSAGE_APP"
  /\ on_meshtastic_message example_config example_db [] telemetry_text_packet
     = [Schedule (MatrixRelay (py "!room1") (py "[Alice/MeshA]: x")
                    (py "Alice") (py "MeshA"))].
Proof. split; [vm_compute; discriminate | vm_compute; reflexivity]. Qed.

(** C8, amended.  A packet without a text (absent or empty), as telemetry,
    position and admin packets are, and a packet without a channel whose
    port number is not [TEXT_MESSAGE_APP], schedule nothing: no plugin
    coroutine and no chat send. *)
Theorem on_meshtastic_message_without_text cfg db plugins packet :
  truthy (decoded_text packet) = false
  \/ (channel packet = None /\ portnum packet <> py "TEXT_MESSAGE_APP") ->
  on_meshtastic_message cfg db plugins packet = [].
Proof.
  unfold on_meshtastic_message, packet_channel.
  intros [Hnotext | [Hch Hport]].
  - by destruct (decoded_text packet) as [[|c s]|].
  - rewrite Hch, bool_decide_eq_false_2 by done.
    by destruct (decoded_text packet) as [[|c s]|].
Qed.

(** C8, amended, at a telemetry packet. *)
Lemma on_meshtastic_message_without_text_witness :
  on_meshtastic_message example_config example_db [quiet_plugin]
    telemetry_packet = [].
Proof.
  apply on_meshtastic_message_without_text. left. reflexivity.
Defined.


(* ===================================================================== *)
(** * Plugin failures *)
(* ===================================================================== *)

(** C3 fails as stated in the chat-to-radio direction: a handler that
    raises ends [on_room_message], the next plugin is not called and the
    text that two quiet plugins let through is not sent. *)
Lemma failing_plugin_stops_room_relay :
  handle_room_message failing_plugin (py "!room1") remote_event
    (py "Bob/Mesh: yo") = Raises
  /\ on_room_message example_world example_config
       [failing_plugin; quiet_plugin] (py "!room1") remote_event
     = ([Configure failing_plugin;
         HandleRoomMessage failing_plugin (py "!room1") remote_event
           (py "Bob/Mesh: yo")],
        Raise (PluginError failing_plugin))
  /\ radio_sends (trace (on_room_message example_world example_config
                           [quiet_plugin; quiet_plugin] (py "!room1")
                           remote_event))
     = [(py "Bob/Mesh: yo", 0)].
Proof. repeat split; vm_compute; reflexivity. Qed.

(** C3, amended.  Radio to chat: for a text packet on a mapped channel
    every plugin's handler is scheduled and every room of the channel is
    sent to, whatever the handlers do when they run.  Chat to radio: the
    handlers are awaited in turn, and the first one that raises ends the
    callback with its exception, after the plugins before it and before the
    plugins after it and the radio send. *)
Theorem plugin_failure_isolation :
  (forall cfg db plugins packet c s ch,
     decoded_text packet = Some (c :: s) ->
     packet_channel packet = Some ch ->
     channel_mapped cfg ch = true ->
     plugins_scheduled (on_meshtastic_message cfg db plugins packet) = plugins
     /\ rooms_sent_to (run_loop (on_meshtastic_message cfg db plugins packet))
        = map room_id (rooms_for_channel cfg ch))
  /\ (forall w cfg plugins1 p plugins2 room ev full_message,
        sender ev <> bot_user_id cfg ->
        bot_start_time cfg < server_timestamp ev ->
        outcome (format_room_message w cfg ev) = Ret (Some full_message) ->
        Forall (fun q => handle_room_message q room ev full_message = Returns)
          plugins1 ->
        handle_room_message p room ev full_message = Raises ->
        outcome (on_room_message w cfg (plugins1 ++ p :: plugins2) room ev)
        = Raise (PluginError p)
        /\ plugins_handled
             (trace (on_room_message w cfg (plugins1 ++ p :: plugins2) room ev))
           = plugins1 ++ [p]
        /\ radio_sends
             (trace (on_room_message w cfg (plugins1 ++ p :: plugins2) room ev))
           = []).
Proof.
  split.
  - intros cfg db plugins packet c s ch Ht Hc Hm. split.
    + rewrite (on_meshtastic_message_text _ _ _ _ _ _ _ Ht Hc), Hm. cbv zeta.
      rewrite plugins_scheduled_app, plugins_scheduled_plugins,
        plugins_scheduled_rooms.
      apply app_nil_r.
    + apply (on_meshtastic_message_rooms_sent cfg db plugins packet c s ch Ht Hc).
  - intros w cfg plugins1 p plugins2 room ev full_message Hs Hts Hf Hret Hp.
    unfold on_room_message. rewrite bool_decide_eq_true_2 by done.
    destruct (Z.ltb_spec (bot_start_time cfg) (server_timestamp ev)); [|lia].
    pose proof (format_room_message_quiet w cfg ev) as [Hq1 Hq2].
    destruct (format_room_message w cfg ev) as [t o]. cbn [outcome snd] in Hf.
    subst o. rewrite bind_pair_ret.
    rewrite (dispatch_room_plugins_raises _ _ _ _ _ _ Hret Hp).
    cbn [bind trace outcome fst snd] in *. split; [reflexivity|].
    by rewrite plugins_handled_app, radio_sends_app, plugins_handled_calls,
      radio_sends_calls, Hq1, Hq2.
Qed.

(** C3, amended, with a failing plugin among quiet ones. *)
Lemma plugin_failure_isolation_witness :
  (plugins_scheduled
     (on_meshtastic_message example_config example_db
        [failing_plugin; quiet_plugin] (alice_packet (py "TEXT_MESSAGE_APP")))
   = [failing_plugin; quiet_plugin]
   /\ rooms_sent_to
        (run_loop
           (on_meshtastic_message example_config example_db
              [failing_plugin; quiet_plugin]
              (alice_packet (py "TEXT_MESSAGE_APP"))))
      = [py "!room1"])
  /\ plugins_handled
       (trace (on_room_message example_world example_config
                 ([quiet_plugin] ++ failing_plugin :: [quiet_plugin])
                 (py "!room1") remote_event))
     = [quiet_plugin] ++ [failing_plugin].
Proof.
  split.
  - apply (proj1 plugin_failure_isolation example_config example_db
             [failing_plugin; quiet_plugin]
             (alice_packet (py "TEXT_MESSAGE_APP")) 104 [105] 0);
      reflexivity.
  - apply (proj2 plugin_failure_isolation example_world example_config
             [quiet_plugin] failing_plugin [quiet_plugin] (py "!room1")
             remote_event (py "Bob/Mesh: yo")); try reflexivity.
    + vm_compute; discriminate.
    + repeat constructor.
Defined.

(* ===================================================================== *)
(** * More on [truncate_message] *)
(* ===================================================================== *)

(** ** More on [truncate_message] *)

Lemma truncate_message_fits_eq text bs max_bytes :
  utf8_encode text = Some bs ->
  Z.of_nat (length bs) <= max_bytes ->
  truncate_message text max_bytes = Some text.
Proof.
  intros Hbs Hlen. unfold truncate_message. rewrite Hbs.
  rewrite slice_to_nonneg by lia. rewrite take_ge by lia.
  by apply utf8_decode_encode.
Qed.


(** X1.  A text whose encoding has at most [max_bytes] bytes is returned
    unchanged. *)
Theorem truncate_message_short_text text bs max_bytes :
  utf8_encode text = Some bs ->
  Z.of_nat (length bs) <= max_bytes ->
  truncate_message text max_bytes = Some text.
Proof. apply truncate_message_fits_eq. Qed.

(** X1 at sample data. *)
Lemma truncate_message_short_text_witness :
  truncate_message (py "hello") 227 = Some (py "hello").
Proof.
  apply (truncate_message_short_text (py "hello") (py "hello") 227).
  - reflexivity.
  - vm_compute. discriminate.
Defined.


(** X2.  Truncating what [truncate_message] returned, with the same bound,
    changes nothing. *)
Theorem truncate_message_idempotent text max_bytes r :
  0 <= max_bytes ->
  truncate_message text max_bytes = Some r ->
  truncate_message r max_bytes = Some r.
Proof.
  intros Hm Hr.
  destruct (truncate_message_result text max_bytes r Hm Hr)
    as (rb & Hrb & Hlen & _).
  eauto using truncate_message_fits_eq.
Qed.

(** X2 at sample data. *)
Lemma truncate_message_idempotent_witness :
  truncate_message [0x48; 0xE9; 0x20AC] 9 = Some [0x48; 0xE9; 0x20AC].
Proof.
  apply (truncate_message_idempotent [0x48; 0xE9; 0x20AC; 0x1F600; 0x41] 9).
  - discriminate.
  - reflexivity.
Defined.

(** Cutting keeps every character that fits: after the result comes the
    end of the text or a character too long for the bytes left. *)
Lemma utf8_decode_take_maximal s bs (n : nat) :
  utf8_encode s = Some bs ->
  exists r rb rest,
    utf8_decode Ignore (take n bs) = Some r
    /\ s = r ++ rest
    /\ utf8_encode r = Some rb
    /\ (length rb <= n)%nat
    /\ match rest with
       | [] => True
       | c :: _ => exists b, utf8_encode_char c = Some b
                             /\ (n < length rb + length b)%nat
       end.
Proof.
  revert bs n. induction s as [|c s IH]; intros bs n H.
  - injection H as <-. exists [], [], []. rewrite take_nil.
    repeat split; cbn; lia.
  - apply utf8_encode_cons in H as (b & bs' & Hb & Hs & ->).
    pose proof (utf8_encode_char_shape _ _ Hb) as Hshape.
    destruct (decide (n < length b)%nat) as [Hlt|Hge].
    + exists [], [], (c :: s). rewrite take_app_le by lia.
      split; [eauto using utf8_decode_cut|].
      repeat split; cbn; [lia|]. exists b. split; [done | cbn; lia].
    + destruct (IH bs' (n - length b)%nat Hs)
        as (r & rb & rest & Hd & -> & He & Hlen & Hnext).
      exists (c :: r), (b ++ rb), rest. rewrite take_app_ge by lia.
      rewrite (utf8_decode_encoded_char Ignore c b) by done.
      rewrite Hd. split; [done|]. split; [done|].
      split; [cbn [utf8_encode]; by rewrite Hb, He|].
      rewrite length_app. split; [lia|].
      destruct rest as [|d rest]; [done|].
      destruct Hnext as (bd & Hbd & Hn). exists bd. split; [done | lia].
Qed.

Lemma encoded_char_length c b : encoded_char c b -> (1 <= length b <= 4)%nat.
Proof. destruct 1; cbn; lia. Qed.


(** X3.  The result is the longest prefix of the text that fits: it is the
    whole text, or it is followed in the text by a character whose bytes
    do not fit in what is left of [max_bytes], so fewer than four bytes of
    the bound stay unused. *)
Theorem truncate_message_keeps_what_fits text max_bytes r :
  0 <= max_bytes ->
  truncate_message text max_bytes = Some r ->
  exists rb rest,
    text = r ++ rest
    /\ utf8_encode r = Some rb
    /\ (rest = []
        \/ (max_bytes - 4 < Z.of_nat (length rb)
            /\ exists c rest' b,
                 rest = c :: rest'
                 /\ utf8_encode_char c = Some b
                 /\ max_bytes < Z.of_nat (length rb + length b))).
Proof.
  intros Hm. unfold truncate_message.
  destruct (utf8_encode text) as [bs|] eqn:Hbs; [|discriminate].
  rewrite slice_to_nonneg by done. intros Hr.
  destruct (utf8_decode_take_maximal text bs (Z.to_nat max_bytes) Hbs)
    as (r' & rb & rest & Hr' & -> & He & Hlen & Hnext).
  assert (r' = r) as -> by congruence.
  exists rb, rest. split; [done|]. split; [done|].
  destruct rest as [|c rest']; [by left | right].
  destruct Hnext as (b & Hb & Hn).
  pose proof (encoded_char_length c b (utf8_encode_char_shape _ _ Hb)).
  split; [lia|]. exists c, rest', b. split; [done|]. split; [done | lia].
Qed.

(** X3 at sample data. *)
Lemma truncate_message_keeps_what_fits_witness :
  exists rb rest,
    [0x48; 0xE9; 0x20AC; 0x1F600; 0x41] = [0x48; 0xE9; 0x20AC] ++ rest
    /\ utf8_encode [0x48; 0xE9; 0x20AC] = Some rb
    /\ (rest = []
        \/ (9 - 4 < Z.of_nat (length rb)
            /\ exists c rest' b,
                 rest = c :: rest'
                 /\ utf8_encode_char c = Some b
                 /\ 9 < Z.of_nat (length rb + length b))).
Proof.
  apply (truncate_message_keeps_what_fits
           [0x48; 0xE9; 0x20AC; 0x1F600; 0x41] 9 [0x48; 0xE9; 0x20AC]).
  - discriminate.
  - reflexivity.
Defined.

Lemma utf8_encode_nonempty c s bs :
  utf8_encode (c :: s) = Some bs -> (1 <= length bs)%nat.
Proof.
  intros (b & bs' & Hb & _ & ->)%utf8_encode_cons.
  pose proof (encoded_char_length c b (utf8_encode_char_shape _ _ Hb)).
  rewrite length_app. lia.
Qed.


(** X4.  With a negative [max_bytes] the slice counts from the end: on every
    text [encode] accepts the function returns a prefix of the text whose
    encoding has at most [len + max_bytes] bytes (none if that is
    negative), and never the whole of a non-empty text. *)
Theorem truncate_message_negative_bound text bs max_bytes :
  max_bytes < 0 ->
  utf8_encode text = Some bs ->
  exists r rb,
    truncate_message text max_bytes = Some r
    /\ r `prefix_of` text
    /\ utf8_encode r = Some rb
    /\ Z.of_nat (length rb) <= Z.max 0 (Z.of_nat (length bs) + max_bytes)
    /\ (text <> [] -> r <> text).
Proof.
  intros Hm Hbs. unfold truncate_message, slice_to. rewrite Hbs.
  destruct (Z.leb_spec 0 max_bytes); [lia|].
  destruct (utf8_decode_take text bs
              (Z.to_nat (Z.of_nat (length bs) + max_bytes)) Hbs)
    as (r & rb & Hr & Hp & He & Hpb).
  apply prefix_length in Hpb. rewrite length_take in Hpb.
  exists r, rb. split; [done|]. split; [done|]. split; [done|].
  split; [lia|]. intros Hne ->.
  assert (rb = bs) as -> by congruence.
  destruct text as [|c s]; [done|].
  apply utf8_encode_nonempty in Hbs. lia.
Qed.

(** X4 at sample data. *)
Lemma truncate_message_negative_bound_witness :
  exists r rb,
    truncate_message [0x48; 0x20AC] (-1) = Some r
    /\ r `prefix_of` [0x48; 0x20AC]
    /\ utf8_encode r = Some rb
    /\ Z.of_nat (length rb)
       <= Z.max 0 (Z.of_nat (length [72; 226; 130; 172]) + -1)
    /\ ([0x48; 0x20AC] <> [] -> r <> [0x48; 0x20AC]).
Proof.
  apply (truncate_message_negative_bound [0x48; 0x20AC] [72; 226; 130; 172]
           (-1)).
  - reflexivity.
  - reflexivity.
Defined.

(* ===================================================================== *)
(** * More on the chat-to-radio callback *)
(* ===================================================================== *)

(** ** More on [on_room_message] *)

Lemma find_room_config_none cfg room :
  find_room_config cfg room = None
  <-> forall rc, rc ∈ matrix_rooms cfg -> room_id rc <> room.
Proof.
  unfold find_room_config. induction (matrix_rooms cfg) as [|rc l IH];
    cbn [find].
  - split; [intros _ rc H; by apply elem_of_nil in H | done].
  - case_bool_decide as Hrc.
    + split; [discriminate|]. intros H. exfalso. apply (H rc); [left | done].
    + rewrite IH. split.
      * intros H rc' [->|Hin]%elem_of_cons; auto.
      * intros H rc' Hin. apply H. by right.
Qed.

Lemma find_room_config_first cfg room config :
  find_room_config cfg room = Some config
  <-> exists l1 l2,
        matrix_rooms cfg = l1 ++ config :: l2
        /\ room_id config = room
        /\ forall rc, rc ∈ l1 -> room_id rc <> room.
Proof.
  unfold find_room_config. induction (matrix_rooms cfg) as [|rc l IH];
    cbn [find].
  - split; [discriminate|]. intros (l1 & l2 & H & _). by destruct l1.
  - case_bool_decide as Hrc.
    + split.
      * intros [= ->]. exists [], l. split; [done|]. split; [done|].
        intros rc' H. by apply elem_of_nil in H.
      * intros ([|rc' l1] & l2 & H & Hid & Hl1).
        -- by injection H as -> _.
        -- injection H as -> _. exfalso. apply (Hl1 rc'); [left | done].
    + rewrite IH. split.
      * intros (l1 & l2 & -> & Hid & Hl1). exists (rc :: l1), l2.
        split; [done|]. split; [done|].
        intros rc' [->|Hin]%elem_of_cons; auto.
      * intros ([|rc' l1] & l2 & H & Hid & Hl1).
        -- injection H as -> _. congruence.
        -- injection H as -> ->. exists l1, l2. split; [done|].
           split; [done|]. intros rc Hin. apply Hl1. by right.
Qed.

(** The callback when the message is formatted and every handler
    returns. *)
Lemma on_room_message_relays w cfg plugins room ev full_message :
  sender ev <> bot_user_id cfg ->
  bot_start_time cfg < server_timestamp ev ->
  outcome (format_room_message w cfg ev) = Ret (Some full_message) ->
  Forall (fun p => handle_room_message p room ev full_message = Returns)
    plugins ->
  on_room_message w cfg plugins room ev
  = (trace (format_room_message w cfg ev)
     ++ room_plugin_calls room ev full_message plugins
     ++ match find_room_config cfg room with
        | Some config =>
            if broadcast_enabled cfg
            then [SendText full_message (meshtastic_channel config)]
            else []
        | None => []
        end,
     Ret tt).
Proof.
  intros Hs Hts Hf Hret. unfold on_room_message.
  rewrite bool_decide_eq_true_2 by done.
  destruct (Z.ltb_spec (bot_start_time cfg) (server_timestamp ev)); [|lia].
  destruct (format_room_message w cfg ev) as [t o]. cbn [outcome snd] in Hf.
  subst o. rewrite bind_pair_ret.
  rewrite (dispatch_room_plugins_returns _ _ _ _ Hret), bind_pair_ret.
  cbn [trace fst outcome snd].
  destruct (find_room_config cfg room) as [config|]; [|reflexivity].
  by destruct (broadcast_enabled cfg).
Qed.

(** What the callback sends, if anything. *)
Lemma on_room_message_sends w cfg plugins room ev :
  radio_sends (trace (on_room_message w cfg plugins room ev)) = []
  \/ exists full_message config,
       outcome (format_room_message w cfg ev) = Ret (Some full_message)
       /\ find_room_config cfg room = Some config
       /\ broadcast_enabled cfg = true
       /\ radio_sends (trace (on_room_message w cfg plugins room ev))
          = [(full_message, meshtastic_channel config)].
Proof.
  unfold on_room_message.
  case_bool_decide; [|by left].
  destruct (_ <? _); [|by left].
  pose proof (format_room_message_quiet w cfg ev) as [Hq _].
  destruct (format_room_message w cfg ev) as [t [[fm|]|e]];
    cbn [trace fst outcome snd] in *.
  - rewrite bind_pair_ret. cbn [trace fst]. rewrite radio_sends_app, Hq.
    pose proof (dispatch_room_plugins_radio_sends plugins room ev fm) as Hd.
    destruct (dispatch_room_plugins plugins room ev fm) as [t' [[]|e]];
      cbn [trace fst] in Hd.
    + rewrite bind_pair_ret. cbn [trace fst]. rewrite radio_sends_app, Hd.
      destruct (find_room_config cfg room) as [config|]; [|by left].
      destruct (broadcast_enabled cfg); [|by left].
      right. by exists fm, config.
    + left. cbn [bind trace fst]. by rewrite Hd.
  - left. rewrite bind_pair_ret. cbn [trace fst ret].
    by rewrite radio_sends_app, Hq.
  - left. cbn [bind trace fst]. by rewrite Hq.
Qed.


(** X5.  With broadcast disabled, or in a room that no entry of
    [matrix_rooms] names, nothing is handed to the radio, whatever the
    event and the plugins. *)
Theorem on_room_message_silent w cfg plugins room ev :
  broadcast_enabled cfg = false
  \/ (forall rc, rc ∈ matrix_rooms cfg -> room_id rc <> room) ->
  radio_sends (trace (on_room_message w cfg plugins room ev)) = [].
Proof.
  intros H.
  destruct (on_room_message_sends w cfg plugins room ev)
    as [Hnone | (fm & config & _ & Hfind & Hb & _)]; [exact Hnone|].
  destruct H as [H | H]; [congruence|].
  apply find_room_config_none in H. congruence.
Qed.

(** X5 at sample data. *)
Lemma on_room_message_silent_witness :
  radio_sends (trace (on_room_message example_world example_config
                        [quiet_plugin] (py "!elsewhere") plain_event))
  = [].
Proof.
  apply on_room_message_silent. right.
  intros rc [-> | H]%elem_of_cons; [discriminate|].
  by apply elem_of_nil in H.
Defined.


(** X6.  One event gives at most one [sendText], and its channel is that of
    the first entry of [matrix_rooms] with the room's id. *)
Theorem on_room_message_one_send w cfg plugins room ev :
  (length (radio_sends (trace (on_room_message w cfg plugins room ev))) <= 1)%nat
  /\ forall text ch,
       (text, ch) ∈ radio_sends (trace (on_room_message w cfg plugins room ev)) ->
       exists l1 config l2,
         matrix_rooms cfg = l1 ++ config :: l2
         /\ room_id config = room
         /\ (forall rc, rc ∈ l1 -> room_id rc <> room)
         /\ ch = meshtastic_channel config.
Proof.
  destruct (on_room_message_sends w cfg plugins room ev)
    as [-> | (fm & config & _ & Hfind & _ & ->)].
  - split; [cbn; lia|]. by intros text ch ?%elem_of_nil.
  - split; [cbn; lia|].
    intros text ch [= -> ->]%list_elem_of_singleton.
    apply find_room_config_first in Hfind as (l1 & l2 & H1 & H2 & H3).
    by exists l1, config, l2.
Qed.


(** X7.  When the event passes the guards, is formatted and every handler
    returns, the callback returns and every plugin was awaited once, in
    registration order, each with this room, this event and the formatted
    message; this does not depend on the room being mapped or on broadcast
    being enabled. *)
Theorem on_room_message_dispatches_everywhere w cfg plugins room ev full_message :
  sender ev <> bot_user_id cfg ->
  bot_start_time cfg < server_timestamp ev ->
  outcome (format_room_message w cfg ev) = Ret (Some full_message) ->
  Forall (fun p => handle_room_message p room ev full_message = Returns)
    plugins ->
  outcome (on_room_message w cfg plugins room ev) = Ret tt
  /\ plugins_handled (trace (on_room_message w cfg plugins room ev)) = plugins
  /\ forall p room' ev' message,
       HandleRoomMessage p room' ev' message
         ∈ trace (on_room_message w cfg plugins room ev) ->
       room' = room /\ ev' = ev /\ message = full_message.
Proof.
  intros Hs Hts Hf Hret.
  rewrite (on_room_message_relays w cfg plugins room ev full_message)
    by done.
  pose proof (format_room_message_quiet w cfg ev) as [_ Hq].
  cbn [outcome snd trace fst]. split; [reflexivity|]. split.
  - rewrite !plugins_handled_app, Hq, plugins_handled_calls.
    destruct (find_room_config cfg room) as [config|];
      [destruct (broadcast_enabled cfg)|]; cbn; by rewrite app_nil_r.
  - intros p room' ev' message.
    rewrite !elem_of_app. intros [Hin | [Hin | Hin]].
    + destruct (format_room_message_trace w cfg ev) as [Ht | Ht];
        rewrite Ht in Hin.
      * by apply elem_of_nil in Hin.
      * by apply list_elem_of_singleton in Hin.
    + unfold room_plugin_calls in Hin.
      apply list_elem_of_In, in_flat_map in Hin as (q & _ & [Hq' | [Hq' | []]]).
      * discriminate.
      * by injection Hq' as _ <- <- <-.
    + destruct (find_room_config cfg room) as [config|];
        [destruct (broadcast_enabled cfg)|];
        try (by apply elem_of_nil in Hin).
      by apply list_elem_of_singleton in Hin.
Qed.

(** X6 at sample data. *)
Lemma on_room_message_one_send_witness :
  exists l1 config l2,
    matrix_rooms example_config = l1 ++ config :: l2
    /\ room_id config = py "!room1"
    /\ (forall rc, rc ∈ l1 -> room_id rc <> py "!room1")
    /\ 0 = meshtastic_channel config.
Proof.
  apply (proj2 (on_room_message_one_send example_world example_config
                  [quiet_plugin] (py "!room1") remote_event)
           (py "Bob/Mesh: yo") 0).
  apply (list_elem_of_here (py "Bob/Mesh: yo", 0) []).
Defined.

(** X7 at sample data. *)
Lemma on_room_message_dispatches_everywhere_witness :
  outcome (on_room_message example_world example_config_no_broadcast
             [quiet_plugin; quiet_plugin] (py "!elsewhere") remote_event)
  = Ret tt
  /\ plugins_handled
       (trace (on_room_message example_world example_config_no_broadcast
                 [quiet_plugin; quiet_plugin] (py "!elsewhere") remote_event))
     = [quiet_plugin; quiet_plugin]
  /\ forall p room' ev' message,
       HandleRoomMessage p room' ev' message
         ∈ trace (on_room_message example_world example_config_no_broadcast
                    [quiet_plugin; quiet_plugin] (py "!elsewhere")
                    remote_event) ->
       room' = py "!elsewhere" /\ ev' = remote_event
       /\ message = py "Bob/Mesh: yo".
Proof.
  apply (on_room_message_dispatches_everywhere example_world
           example_config_no_broadcast [quiet_plugin; quiet_plugin]
           (py "!elsewhere") remote_event (py "Bob/Mesh: yo")).
  - vm_compute. discriminate.
  - reflexivity.
  - reflexivity.
  - repeat constructor.
Defined.

(** ** A chat user's message *)

Lemma utf8_encode_none s c :
  c ∈ s -> encodable c = false -> utf8_encode s = None.
Proof.
  intros Hin Hc. destruct (utf8_encode s) as [bs|] eqn:Hbs; [|reflexivity].
  apply utf8_encode_encodable in Hbs.
  rewrite Forall_forall in Hbs. apply Hbs in Hin. congruence.
Qed.

Lemma format_room_message_chat_origin w cfg ev :
  truthy (meshtastic_longname ev) = false
  \/ truthy (meshtastic_meshnet ev) = false ->
  format_room_message w cfg ev = format_chat_origin w ev (strip (body ev)).
Proof.
  unfold format_room_message.
  destruct (meshtastic_longname ev) as [[|l ls]|],
    (meshtastic_meshnet ev) as [[|m ms]|]; try reflexivity.
  intros [H | H]; discriminate.
Qed.


(** X8.  A chat user's message whose stripped body holds a code point that
    UTF-8 cannot encode (a lone surrogate) ends the callback with
    [UnicodeEncodeError] after the display name was asked for: no plugin is
    called and nothing is sent. *)
Theorem on_room_message_unencodable_body w cfg plugins room ev displayname c :
  sender ev <> bot_user_id cfg ->
  bot_start_time cfg < server_timestamp ev ->
  truthy (meshtastic_longname ev) = false
  \/ truthy (meshtastic_meshnet ev) = false ->
  get_displayname w (sender ev) = ProfileGetDisplayNameResponse displayname ->
  c ∈ strip (body ev) ->
  encodable c = false ->
  on_room_message w cfg plugins room ev
  = ([GetDisplayname (sender ev)], Raise UnicodeEncodeError).
Proof.
  intros Hs Hts Hprov Hdn Hin Hc. unfold on_room_message.
  rewrite bool_decide_eq_true_2 by done.
  destruct (Z.ltb_spec (bot_start_time cfg) (server_timestamp ev)); [|lia].
  rewrite format_room_message_chat_origin by done.
  unfold format_chat_origin, truncate_or_raise, truncate_message.
  rewrite Hdn, (utf8_encode_none _ c Hin Hc). reflexivity.
Qed.

(** X8 at sample data. *)
Lemma on_room_message_unencodable_body_witness :
  on_room_message example_world example_config [quiet_plugin] (py "!room1")
    surrogate_event
  = ([GetDisplayname (sender surrogate_event)], Raise UnicodeEncodeError).
Proof.
  apply (on_room_message_unencodable_body example_world example_config
           [quiet_plugin] (py "!room1") surrogate_event
           (Some (py "Alice Liddell")) 0xD800).
  - vm_compute. discriminate.
  - reflexivity.
  - left. reflexivity.
  - reflexivity.
  - apply (list_elem_of_further _ _ _ (list_elem_of_here _ _)).
  - reflexivity.
Defined.


(** X9.  A chat user's message (no longname or no meshnet name in the
    content), newer than the process and not from the bot, in a mapped room
    with broadcast enabled and handlers that return, is sent to the radio
    once, as the first five characters of the display name, or of the
    user id when there is no display name, then [[M]: ] and the stripped
    body truncated to 227 bytes. *)
Theorem on_room_message_chat_user w cfg plugins room ev displayname truncated config :
  sender ev <> bot_user_id cfg ->
  bot_start_time cfg < server_timestamp ev ->
  truthy (meshtastic_longname ev) = false
  \/ truthy (meshtastic_meshnet ev) = false ->
  get_displayname w (sender ev) = ProfileGetDisplayNameResponse displayname ->
  truncate_message (strip (body ev)) 227 = Some truncated ->
  Forall (fun p => handle_room_message p room ev
                     (slice_to (or_else displayname (sender ev)) 5
                      ++ py "[M]: " ++ truncated) = Returns) plugins ->
  find_room_config cfg room = Some config ->
  broadcast_enabled cfg = true ->
  radio_sends (trace (on_room_message w cfg plugins room ev))
  = [(slice_to (or_else displayname (sender ev)) 5 ++ py "[M]: " ++ truncated,
      meshtastic_channel config)].
Proof.
  intros Hs Hts Hprov Hdn Htr Hret Hfind Hb.
  assert (format_room_message w cfg ev
          = ([GetDisplayname (sender ev)],
             Ret (Some (slice_to (or_else displayname (sender ev)) 5
                        ++ py "[M]: " ++ truncated)))) as Hf.
  { rewrite format_room_message_chat_origin by done.
    unfold format_chat_origin, truncate_or_raise, default_max_bytes.
    rewrite Hdn, Htr. cbn [act ret bind app]. by rewrite <- app_assoc. }
  rewrite (on_room_message_relays w cfg plugins room ev
             (slice_to (or_else displayname (sender ev)) 5
              ++ py "[M]: " ++ truncated) Hs Hts);
    [|by rewrite Hf|exact Hret].
  rewrite Hf, Hfind, Hb. cbn [trace fst].
  by rewrite !radio_sends_app, radio_sends_calls.
Qed.

(** X9 at sample data. *)
Lemma on_room_message_chat_user_witness :
  radio_sends (trace (on_room_message nameless_world example_config
                        [quiet_plugin] (py "!room1") plain_event))
  = [(slice_to (or_else None (sender plain_event)) 5 ++ py "[M]: "
      ++ py "good morning", meshtastic_channel
                              {| room_id := py "!room1";
                                 meshtastic_channel := 0 |})].
Proof.
  apply (on_room_message_chat_user nameless_world example_config
           [quiet_plugin] (py "!room1") plain_event None (py "good morning")).
  - vm_compute. discriminate.
  - reflexivity.
  - left. reflexivity.
  - reflexivity.
  - reflexivity.
  - repeat constructor.
  - reflexivity.
  - reflexivity.
Defined.

(* ===================================================================== *)
(** * Between radio and chat *)
(* ===================================================================== *)

(** ** The pattern on plain tags *)


(** X10.  When the tag has no character with a meaning in a pattern, the
    substitution is the spec's [stripOwnPrefix]: a text that starts with the
    bracketed tag loses it, once, and any other text is returned
    unchanged. *)
Theorem strip_own_prefix_without_metacharacters beyond text tag :
  forallb re_plain tag = true ->
  strip_own_prefix beyond text tag = ReOk (strip_literal_prefix text tag)
  /\ (forall rest,
        text = py "[" ++ tag ++ py "]: " ++ rest ->
        strip_own_prefix beyond text tag = ReOk rest)
  /\ (~ (py "[" ++ tag ++ py "]: ") `prefix_of` text ->
      strip_own_prefix beyond text tag = ReOk text).
Proof.
  intros Hplain. rewrite (strip_own_prefix_plain beyond text tag Hplain).
  split; [reflexivity|]. unfold strip_literal_prefix. split.
  - intros rest ->. rewrite bool_decide_eq_true_2.
    + f_equal. rewrite !app_assoc. apply drop_app_length.
    + exists rest. by rewrite <- !app_assoc.
  - intros Hno. by rewrite bool_decide_eq_false_2.
Qed.

(** X10 at sample data. *)
Lemma strip_own_prefix_without_metacharacters_witness :
  strip_own_prefix (fun _ _ => ReError)
    (py "[Alice/MeshA]: [Alice/MeshA]: hi") (py "Alice/MeshA")
  = ReOk (py "[Alice/MeshA]: hi").
Proof.
  apply (proj1 (proj2 (strip_own_prefix_without_metacharacters
                         (fun _ _ => ReError)
                         (py "[Alice/MeshA]: [Alice/MeshA]: hi")
                         (py "Alice/MeshA") eq_refl))).
  reflexivity.
Defined.

(** ** What the radio callback sends *)

Lemma run_loop_on_meshtastic_message cfg db plugins packet c s ch :
  decoded_text packet = Some (c :: s) ->
  packet_channel packet = Some ch ->
  run_loop (on_meshtastic_message cfg db plugins packet)
  = map (fun rc => RoomSend (room_id rc) (py "m.room.message")
                     (packet_content cfg db packet (c :: s)))
      (rooms_for_channel cfg ch).
Proof.
  intros Ht Hc. rewrite (on_meshtastic_message_text _ _ _ _ _ _ _ Ht Hc).
  destruct (channel_mapped cfg ch) eqn:Hmapped.
  - cbv zeta. by rewrite run_loop_app, run_loop_plugins, run_loop_rooms.
  - by rewrite rooms_for_channel_unmapped.
Qed.




(** ** Loop prevention *)

Lemma on_room_message_local_provenance w cfg plugins room ev :
  truthy (meshtastic_longname ev) = true ->
  truthy (meshtastic_meshnet ev) = true ->
  meshtastic_meshnet ev = Some (meshnet_name cfg) ->
  on_room_message w cfg plugins room ev = ([], Ret tt).
Proof.
  intros Hl Hm Hlocal. unfold on_room_message, format_room_message.
  rewrite Hlocal in *.
  destruct (meshtastic_longname ev) as [[|l ls]|]; try discriminate.
  destruct (meshnet_name cfg) as [|m ms]; try discriminate.
  case_bool_decide; [|reflexivity].
  destruct (_ <? _); [|reflexivity].
  case_bool_decide; [congruence | reflexivity].
Qed.

Lemma or_else_nonempty o d : d <> [] -> or_else o d <> [].
Proof. by destruct o as [[|c s]|]. Qed.

Lemma truthy_nonempty s : s <> [] -> truthy (Some s) = true.
Proof. by destruct s. Qed.

Lemma room_send_on_meshtastic_message cfg db plugins packet room mt content :
  RoomSend room mt content
    ∈ run_loop (on_meshtastic_message cfg db plugins packet) ->
  exists text, decoded_text packet = Some text
               /\ content = packet_content cfg db packet text.
Proof.
  destruct (decoded_text packet) as [[|c s]|] eqn:Ht;
    try (unfold on_meshtastic_message; rewrite Ht;
         by intros ?%elem_of_nil).
  destruct (packet_channel packet) as [ch|] eqn:Hc.
  - rewrite (run_loop_on_meshtastic_message _ _ _ _ _ _ _ Ht Hc).
    intros (rc & [= _ _ ->] & _)%list_elem_of_fmap. by exists (c :: s).
  - unfold on_meshtastic_message. rewrite Ht, Hc. by intros ?%elem_of_nil.
Qed.


(** X12.  Loop prevention end to end: whatever this relay sends to a room for
    a packet, coming back as an event with any sender and timestamp, makes
    [on_room_message] of the same relay do nothing, provided the node id
    and the local meshnet name are not empty. *)
Theorem relay_ignores_its_own_messages
    cfg db plugins packet room mt content w plugins' room' sender ts :
  fromId packet <> [] ->
  meshnet_name cfg <> [] ->
  RoomSend room mt content
    ∈ run_loop (on_meshtastic_message cfg db plugins packet) ->
  on_room_message w cfg plugins' room' (event_of_room_send sender ts content)
  = ([], Ret tt).
Proof.
  intros Hfrom Hmesh (text & _ & ->)%room_send_on_meshtastic_message.
  apply on_room_message_local_provenance; cbn.
  - apply truthy_nonempty, or_else_nonempty, Hfrom.
  - by apply truthy_nonempty.
  - reflexivity.
Qed.

(** X12 at sample data. *)
Lemma relay_ignores_its_own_messages_witness :
  on_room_message example_world example_config [failing_plugin] (py "!room1")
    (event_of_room_send (py "@other:example.org") 5000
       (packet_content example_config example_db
          (alice_packet (py "TEXT_MESSAGE_APP")) (py "hi")))
  = ([], Ret tt).
Proof.
  apply (relay_ignores_its_own_messages example_config example_db
           [quiet_plugin] (alice_packet (py "TEXT_MESSAGE_APP"))
           (py "!room1") (py "m.room.message")).
  - discriminate.
  - discriminate.
  - apply (list_elem_of_here _ []).
Defined.

(* ===================================================================== *)
(** * Between two relays *)
(* ===================================================================== *)

(** ** [strip] and concatenation *)

Lemma lstrip_app u v : lstrip u <> [] -> lstrip (u ++ v) = lstrip u ++ v.
Proof.
  induction u as [|c u IH]; [done|]. cbn [lstrip app].
  destruct (is_space c); [exact IH | done].
Qed.

Lemma rstrip_app a t : rstrip t <> [] -> rstrip (a ++ t) = a ++ rstrip t.
Proof.
  unfold rstrip. intros Ht. rewrite rev_app_distr, lstrip_app.
  - by rewrite rev_app_distr, rev_involutive.
  - intros H. apply Ht. by rewrite H.
Qed.

Lemma strip_bracketed tag text :
  rstrip text <> [] ->
  strip (py "[" ++ tag ++ py "]: " ++ text)
  = py "[" ++ tag ++ py "]: " ++ rstrip text.
Proof.
  intros Ht. unfold strip.
  change (lstrip (py "[" ++ tag ++ py "]: " ++ text))
    with (py "[" ++ tag ++ py "]: " ++ text).
  rewrite !app_assoc. rewrite rstrip_app by done. reflexivity.
Qed.

Lemma re_plain_app a b :
  forallb re_plain (a ++ b) = forallb re_plain a && forallb re_plain b.
Proof. apply forallb_app. Qed.

(** ** From one meshnet to another *)

Lemma relayed_content_from_another_meshnet
    w cfg_a cfg_b db plugins room packet text sender ts truncated config :
  fromId packet <> [] ->
  meshnet_name cfg_a <> [] ->
  meshnet_name cfg_a <> meshnet_name cfg_b ->
  forallb re_plain (packet_longname db packet) = true ->
  forallb re_plain (meshnet_name cfg_a) = true ->
  rstrip text <> [] ->
  truncate_message (rstrip text) 227 = Some truncated ->
  sender <> bot_user_id cfg_b ->
  bot_start_time cfg_b < ts ->
  Forall (fun p => handle_room_message p room
                     (event_of_room_send sender ts
                        (packet_content cfg_a db packet text))
                     (slice_to (packet_longname db packet) 3 ++ py "/"
                      ++ slice_to (meshnet_name cfg_a) 4 ++ py ": "
                      ++ truncated) = Returns) plugins ->
  find_room_config cfg_b room = Some config ->
  broadcast_enabled cfg_b = true ->
  radio_sends
    (trace (on_room_message w cfg_b plugins room
              (event_of_room_send sender ts
                 (packet_content cfg_a db packet text))))
  = [(slice_to (packet_longname db packet) 3 ++ py "/"
      ++ slice_to (meshnet_name cfg_a) 4 ++ py ": " ++ truncated,
      meshtastic_channel config)].
Proof.
  intros Hfrom Hmesh Hother Hpl Hpm Htext Htr Hs Hts Hret Hfind Hb.
  set (ev := event_of_room_send sender ts
               (packet_content cfg_a db packet text)) in *.
  set (L := packet_longname db packet) in *.
  set (MA := meshnet_name cfg_a) in *.
  assert (L <> []) as HL by (apply or_else_nonempty, Hfrom).
  assert (format_room_message w cfg_b ev
          = ([], Ret (Some (slice_to L 3 ++ py "/" ++ slice_to MA 4
                            ++ py ": " ++ truncated)))) as Hf.
  { unfold format_room_message.
    change (meshtastic_longname ev) with (Some L).
    change (meshtastic_meshnet ev) with (Some MA).
    change (body ev) with (py "[" ++ L ++ py "/" ++ MA ++ py "]: " ++ text).
    destruct L as [|l ls] eqn:HeqL; [done|].
    destruct MA as [|m ms] eqn:HeqM; [done|].
    rewrite bool_decide_eq_true_2 by done.
    rewrite <- HeqL, <- HeqM in *.
    unfold format_remote_meshnet.
    replace (py "[" ++ L ++ py "/" ++ MA ++ py "]: " ++ text)
      with (py "[" ++ (L ++ py "/" ++ MA) ++ py "]: " ++ text)
      by (by rewrite <- !app_assoc).
    rewrite strip_bracketed by done.
    rewrite strip_own_prefix_plain.
    2:{ rewrite !re_plain_app, Hpl, Hpm. reflexivity. }
    unfold strip_literal_prefix.
    rewrite bool_decide_eq_true_2
      by (exists (rstrip text); by rewrite <- !app_assoc).
    replace (py "[" ++ (L ++ py "/" ++ MA) ++ py "]: " ++ rstrip text)
      with ((py "[" ++ (L ++ py "/" ++ MA) ++ py "]: ") ++ rstrip text)
      by (by rewrite <- !app_assoc).
    rewrite drop_app_length.
    unfold truncate_or_raise, default_max_bytes. rewrite Htr.
    cbn [ret bind app]. by rewrite <- !app_assoc. }
  rewrite (on_room_message_relays w cfg_b plugins room ev
             (slice_to L 3 ++ py "/" ++ slice_to MA 4 ++ py ": " ++ truncated));
    [|exact Hs|exact Hts|by rewrite Hf|exact Hret].
  rewrite Hf, Hfind, Hb. cbn [trace fst app].
  by rewrite !radio_sends_app, radio_sends_calls.
Qed.


(** X13.  From one meshnet to another: what relay A sends to the room for a
    packet whose text has a character that is not white space, relay B (of
    another meshnet, room mapped, broadcast enabled, handlers returning)
    sends to its radio as the first three characters of the longname, a
    slash, the first four of A's meshnet name, [: ] and the text without its
    trailing white space, truncated to 227 bytes.  Longname and meshnet
    name are free of pattern characters. *)
Theorem relayed_from_another_meshnet
    w cfg_a cfg_b db plugins_a plugins room_a room mt content packet
    sender ts truncated config text :
  decoded_text packet = Some text ->
  RoomSend room_a mt content
    ∈ run_loop (on_meshtastic_message cfg_a db plugins_a packet) ->
  fromId packet <> [] ->
  meshnet_name cfg_a <> [] ->
  meshnet_name cfg_a <> meshnet_name cfg_b ->
  forallb re_plain (packet_longname db packet) = true ->
  forallb re_plain (meshnet_name cfg_a) = true ->
  rstrip text <> [] ->
  truncate_message (rstrip text) 227 = Some truncated ->
  sender <> bot_user_id cfg_b ->
  bot_start_time cfg_b < ts ->
  Forall (fun p => handle_room_message p room
                     (event_of_room_send sender ts content)
                     (slice_to (packet_longname db packet) 3 ++ py "/"
                      ++ slice_to (meshnet_name cfg_a) 4 ++ py ": "
                      ++ truncated) = Returns) plugins ->
  find_room_config cfg_b room = Some config ->
  broadcast_enabled cfg_b = true ->
  radio_sends
    (trace (on_room_message w cfg_b plugins room
              (event_of_room_send sender ts content)))
  = [(slice_to (packet_longname db packet) 3 ++ py "/"
      ++ slice_to (meshnet_name cfg_a) 4 ++ py ": " ++ truncated,
      meshtastic_channel config)].
Proof.
  intros Ht (text' & Ht' & ->)%room_send_on_meshtastic_message.
  assert (text' = text) as -> by congruence.
  apply relayed_content_from_another_meshnet.
Qed.

(** X13 at sample data. *)
Lemma relayed_from_another_meshnet_witness :
  radio_sends
    (trace (on_room_message example_world example_config_b [quiet_plugin]
              (py "!room1")
              (event_of_room_send (py "@relay:example.org") 2000
                 (packet_content example_config example_db
                    (alice_packet (py "TEXT_MESSAGE_APP")) (py "hi")))))
  = [(slice_to (packet_longname example_db
                  (alice_packet (py "TEXT_MESSAGE_APP"))) 3 ++ py "/"
      ++ slice_to (meshnet_name example_config) 4 ++ py ": " ++ py "hi",
      meshtastic_channel {| room_id := py "!room1"; meshtastic_channel := 2 |})].
Proof.
  apply (relayed_from_another_meshnet example_world example_config
           example_config_b example_db [failing_plugin] [quiet_plugin]
           (py "!room1") (py "!room1") (py "m.room.message")
           (packet_content example_config example_db
              (alice_packet (py "TEXT_MESSAGE_APP")) (py "hi"))
           (alice_packet (py "TEXT_MESSAGE_APP"))
           (py "@relay:example.org") 2000 (py "hi")
           {| room_id := py "!room1"; meshtastic_channel := 2 |} (py "hi"));
    try reflexivity; try discriminate.
  - apply (list_elem_of_here _ []).
  - repeat constructor.
Defined.

(** ** A text of white space *)

Lemma lstrip_spaces_app u v :
  Forall (fun c => is_space c = true) u -> lstrip (u ++ v) = lstrip v.
Proof.
  induction 1 as [|c u Hc _ IH]; [done|]. cbn [app lstrip]. by rewrite Hc.
Qed.

Lemma rstrip_app_spaces a t :
  Forall (fun c => is_space c = true) t -> rstrip (a ++ t) = rstrip a.
Proof.
  intros Ht. unfold rstrip.
  by rewrite rev_app_distr, lstrip_spaces_app by apply Forall_rev, Ht.
Qed.


(** X14.  If the text of the packet is white space only, [strip] takes the
    space after the colon with it, the pattern no longer matches, and relay
    B sends the bracketed tag itself after its short prefix. *)
Theorem white_space_relayed_with_its_tag
    w cfg_a cfg_b db plugins_a plugins room_a room mt content packet
    sender ts truncated config text :
  decoded_text packet = Some text ->
  Forall (fun c => is_space c = true) text ->
  RoomSend room_a mt content
    ∈ run_loop (on_meshtastic_message cfg_a db plugins_a packet) ->
  fromId packet <> [] ->
  meshnet_name cfg_a <> [] ->
  meshnet_name cfg_a <> meshnet_name cfg_b ->
  forallb re_plain (packet_longname db packet) = true ->
  forallb re_plain (meshnet_name cfg_a) = true ->
  truncate_message (py "[" ++ packet_longname db packet ++ py "/"
                    ++ meshnet_name cfg_a ++ py "]:") 227 = Some truncated ->
  sender <> bot_user_id cfg_b ->
  bot_start_time cfg_b < ts ->
  Forall (fun p => handle_room_message p room
                     (event_of_room_send sender ts content)
                     (slice_to (packet_longname db packet) 3 ++ py "/"
                      ++ slice_to (meshnet_name cfg_a) 4 ++ py ": "
                      ++ truncated) = Returns) plugins ->
  find_room_config cfg_b room = Some config ->
  broadcast_enabled cfg_b = true ->
  radio_sends
    (trace (on_room_message w cfg_b plugins room
              (event_of_room_send sender ts content)))
  = [(slice_to (packet_longname db packet) 3 ++ py "/"
      ++ slice_to (meshnet_name cfg_a) 4 ++ py ": " ++ truncated,
      meshtastic_channel config)].
Proof.
  intros Ht Hsp (text' & Ht' & ->)%room_send_on_meshtastic_message.
  assert (text' = text) as -> by congruence. clear Ht'.
  intros Hfrom Hmesh Hother Hpl Hpm Htr Hs Hts Hret Hfind Hb.
  set (ev := event_of_room_send sender ts
               (packet_content cfg_a db packet text)) in *.
  set (L := packet_longname db packet) in *.
  set (MA := meshnet_name cfg_a) in *.
  assert (L <> []) as HL by (apply or_else_nonempty, Hfrom).
  assert (format_room_message w cfg_b ev
          = ([], Ret (Some (slice_to L 3 ++ py "/" ++ slice_to MA 4
                            ++ py ": " ++ truncated)))) as Hf.
  { unfold format_room_message.
    change (meshtastic_longname ev) with (Some L).
    change (meshtastic_meshnet ev) with (Some MA).
    change (body ev) with (py "[" ++ L ++ py "/" ++ MA ++ py "]: " ++ text).
    destruct L as [|l ls] eqn:HeqL; [done|].
    destruct MA as [|m ms] eqn:HeqM; [done|].
    rewrite bool_decide_eq_true_2 by done.
    rewrite <- HeqL, <- HeqM in *.
    unfold format_remote_meshnet.
    assert (strip (py "[" ++ L ++ py "/" ++ MA ++ py "]: " ++ text)
            = py "[" ++ (L ++ py "/" ++ MA) ++ py "]:") as ->.
    { unfold strip.
      change (lstrip (py "[" ++ L ++ py "/" ++ MA ++ py "]: " ++ text))
        with (py "[" ++ L ++ py "/" ++ MA ++ py "]: " ++ text).
      rewrite !app_assoc, rstrip_app_spaces by done.
      change (py "]: ") with (py "]" ++ py ": ").
      rewrite !app_assoc, rstrip_app by done.
      by rewrite <- !app_assoc. }
    rewrite strip_own_prefix_plain.
    2:{ rewrite !re_plain_app, Hpl, Hpm. reflexivity. }
    unfold strip_literal_prefix.
    rewrite bool_decide_eq_false_2.
    2:{ intros Hp%prefix_length. rewrite !length_app in Hp. cbn in Hp. lia. }
    unfold truncate_or_raise, default_max_bytes.
    replace (py "[" ++ (L ++ py "/" ++ MA) ++ py "]:")
      with (py "[" ++ L ++ py "/" ++ MA ++ py "]:")
      by (by rewrite <- !app_assoc).
    rewrite Htr. cbn [ret bind app]. by rewrite <- !app_assoc. }
  rewrite (on_room_message_relays w cfg_b plugins room ev
             (slice_to L 3 ++ py "/" ++ slice_to MA 4 ++ py ": " ++ truncated));
    [|exact Hs|exact Hts|by rewrite Hf|exact Hret].
  rewrite Hf, Hfind, Hb. cbn [trace fst app].
  by rewrite !radio_sends_app, radio_sends_calls.
Qed.

(** X14 at sample data. *)
Lemma white_space_relayed_with_its_tag_witness :
  radio_sends
    (trace (on_room_message example_world example_config_b [quiet_plugin]
              (py "!room1")
              (event_of_room_send (py "@relay:example.org") 2000
                 (packet_content example_config example_db blank_packet
                    (py " ")))))
  = [(slice_to (packet_longname example_db blank_packet) 3 ++ py "/"
      ++ slice_to (meshnet_name example_config) 4 ++ py ": "
      ++ py "[Alice/MeshA]:",
      meshtastic_channel {| room_id := py "!room1"; meshtastic_channel := 2 |})].
Proof.
  apply (white_space_relayed_with_its_tag example_world example_config
           example_config_b example_db [failing_plugin] [quiet_plugin]
           (py "!room1") (py "!room1") (py "m.room.message")
           (packet_content example_config example_db blank_packet (py " "))
           blank_packet (py "@relay:example.org") 2000 (py "[Alice/MeshA]:")
           {| room_id := py "!room1"; meshtastic_channel := 2 |} (py " "));
    try reflexivity; try discriminate.
  - repeat constructor.
  - apply (list_elem_of_here _ []).
  - repeat constructor.
Defined.

(* ===================================================================== *)
(** * Start-up *)
(* ===================================================================== *)

(** ** Joining the rooms *)

Lemma joins_app l1 l2 : joins (l1 ++ l2) = joins l1 ++ joins l2.
Proof. apply flat_map_app. Qed.

Lemma aliases_resolved_app l1 l2 :
  aliases_resolved (l1 ++ l2) = aliases_resolved l1 ++ aliases_resolved l2.
Proof. apply flat_map_app. Qed.

Lemma joins_join_if_absent client r room :
  joins (join_if_absent client r room)
  = if bool_decide (room ∉ client_rooms client) then [room] else [].
Proof.
  unfold join_if_absent. case_bool_decide; [|reflexivity].
  by destruct (join client room).
Qed.

Lemma aliases_resolved_join_if_absent client r room :
  aliases_resolved (join_if_absent client r room) = [].
Proof.
  unfold join_if_absent. case_bool_decide; [|reflexivity].
  by destruct (join client room).
Qed.

(** The room one call asks to join, if any. *)
Lemma joins_join_matrix_room client r :
  joins (join_matrix_room client r)
  = match (if starts_with_hash r then
             match resolve_room_alias client r with
             | RoomResolveAliasResponse (c :: s) => Some (c :: s)
             | _ => None
             end
           else Some r) with
    | Some room => if bool_decide (room ∉ client_rooms client)
                   then [room] else []
    | None => []
    end.
Proof.
  unfold join_matrix_room. destruct (starts_with_hash r).
  - destruct (resolve_room_alias client r) as [[|c s]|]; try reflexivity.
    apply (joins_join_if_absent client r (c :: s)).
  - apply joins_join_if_absent.
Qed.


(** X15.  At start-up a room is asked to be joined only if the client is not
    in it, and only if it is a configured room id or what a configured alias
    resolved to. *)
Theorem join_configured_rooms_sound client cfg room :
  room ∈ joins (join_configured_rooms client cfg) ->
  (room ∉ client_rooms client)
  /\ exists rc, rc ∈ matrix_rooms cfg
                /\ if starts_with_hash (room_id rc)
                   then resolve_room_alias client (room_id rc)
                        = RoomResolveAliasResponse room
                   else room_id rc = room.
Proof.
  unfold join_configured_rooms.
  induction (matrix_rooms cfg) as [|rc l IH]; [by intros ?%elem_of_nil|].
  cbn [flat_map]. rewrite joins_app, elem_of_app. intros [Hin | Hin].
  - rewrite joins_join_matrix_room in Hin.
    assert ((room ∉ client_rooms client)
            /\ if starts_with_hash (room_id rc)
               then resolve_room_alias client (room_id rc)
                    = RoomResolveAliasResponse room
               else room_id rc = room) as [Hnot Hrc].
    { destruct (starts_with_hash (room_id rc)).
      - destruct (resolve_room_alias client (room_id rc)) as [[|c s]|];
          try (by apply elem_of_nil in Hin).
        case_bool_decide; [|by apply elem_of_nil in Hin].
        by apply list_elem_of_singleton in Hin as ->.
      - case_bool_decide; [|by apply elem_of_nil in Hin].
        by apply list_elem_of_singleton in Hin as ->. }
    split; [exact Hnot|]. exists rc. split; [left | exact Hrc].
  - destruct (IH Hin) as (Hnot & rc' & Hrc' & H).
    split; [exact Hnot|]. exists rc'. split; [by right | exact H].
Qed.

(** X15 at sample data. *)
Lemma join_configured_rooms_sound_witness :
  (py "!mesh:example.org" ∉ client_rooms example_client)
  /\ exists rc, rc ∈ matrix_rooms example_rooms_config
                /\ if starts_with_hash (room_id rc)
                   then resolve_room_alias example_client (room_id rc)
                        = RoomResolveAliasResponse (py "!mesh:example.org")
                   else room_id rc = py "!mesh:example.org".
Proof.
  apply (join_configured_rooms_sound example_client example_rooms_config).
  vm_compute. constructor.
Defined.


(** X16.  Every configured room id the client is not in is asked to be
    joined, and so is the room of every configured alias that resolves to a
    room the client is not in, whatever happened to the rooms before it in
    the list. *)
Theorem join_configured_rooms_complete client cfg rc :
  rc ∈ matrix_rooms cfg ->
  (starts_with_hash (room_id rc) = false ->
   room_id rc ∉ client_rooms client ->
   room_id rc ∈ joins (join_configured_rooms client cfg))
  /\ (forall c s,
        starts_with_hash (room_id rc) = true ->
        resolve_room_alias client (room_id rc)
        = RoomResolveAliasResponse (c :: s) ->
        (c :: s) ∉ client_rooms client ->
        (c :: s) ∈ joins (join_configured_rooms client cfg)).
Proof.
  unfold join_configured_rooms. intros Hin.
  induction (matrix_rooms cfg) as [|rc' l IH]; [by apply elem_of_nil in Hin|].
  cbn [flat_map]. rewrite joins_app.
  apply elem_of_cons in Hin as [<- | Hin].
  - rewrite joins_join_matrix_room. split.
    + intros -> Hnot. rewrite bool_decide_eq_true_2 by done.
      apply elem_of_app. left. by apply list_elem_of_singleton.
    + intros c s -> -> Hnot. rewrite bool_decide_eq_true_2 by done.
      apply elem_of_app. left. by apply list_elem_of_singleton.
  - destruct (IH Hin) as [IH1 IH2]. split.
    + intros H1 H2. apply elem_of_app. right. by apply IH1.
    + intros c s H1 H2 H3. apply elem_of_app. right. by apply (IH2 c s).
Qed.

(** X16 at sample data. *)
Lemma join_configured_rooms_complete_witness :
  py "!out:example.org" ∈ joins (join_configured_rooms example_client
                                    example_rooms_config).
Proof.
  apply (proj1 (join_configured_rooms_complete example_client
                  example_rooms_config
                  {| room_id := py "!out:example.org";
                     meshtastic_channel := 2 |}
                  ltac:(vm_compute; repeat constructor))).
  - reflexivity.
  - vm_compute. intros H. discriminate H.
Defined.


(** X17.  One call of [join_matrix_room] asks for at most one join, and
    resolves its argument exactly when it starts with [#]. *)
Theorem join_matrix_room_frugal client r :
  (length (joins (join_matrix_room client r)) <= 1)%nat
  /\ aliases_resolved (join_matrix_room client r)
     = (if starts_with_hash r then [r] else []).
Proof.
  split.
  - rewrite joins_join_matrix_room.
    destruct (if starts_with_hash r then _ else _) as [room|]; [|cbn; lia].
    case_bool_decide; cbn; lia.
  - unfold join_matrix_room. destruct (starts_with_hash r).
    + destruct (resolve_room_alias client r) as [[|c s]|]; try reflexivity.
      cbn [aliases_resolved flat_map app].
      change (flat_map _ (join_if_absent client r (c :: s)))
        with (aliases_resolved (join_if_absent client r (c :: s))).
      by rewrite aliases_resolved_join_if_absent.
    + apply aliases_resolved_join_if_absent.
Qed.

(** ** When the chat callback acts *)

Lemma on_room_message_old w cfg plugins room ev :
  server_timestamp ev <= bot_start_time cfg ->
  on_room_message w cfg plugins room ev = ([], Ret tt).
Proof.
  intros Hts. unfold on_room_message.
  destruct (Z.ltb_spec (bot_start_time cfg) (server_timestamp ev)); [lia|].
  by case_bool_decide.
Qed.


(** X18.  Whenever [on_room_message] does anything at all, the event is not
    from the bot, is newer than the process, and does not carry a longname
    together with the local meshnet name. *)
Theorem on_room_message_acts_only_on_fresh_foreign_events w cfg plugins room ev :
  trace (on_room_message w cfg plugins room ev) <> [] ->
  sender ev <> bot_user_id cfg
  /\ bot_start_time cfg < server_timestamp ev
  /\ ~ (truthy (meshtastic_longname ev) = true
        /\ truthy (meshtastic_meshnet ev) = true
        /\ meshtastic_meshnet ev = Some (meshnet_name cfg)).
Proof.
  intros Hact. split; [|split].
  - intros Hs. apply Hact. unfold on_room_message.
    by rewrite bool_decide_eq_false_2 by (intros H; by apply H).
  - destruct (Z.lt_ge_cases (bot_start_time cfg) (server_timestamp ev))
      as [Hlt | Hge]; [exact Hlt|].
    exfalso. apply Hact. by rewrite on_room_message_old by lia.
  - intros (Hl & Hm & Hlocal). apply Hact.
    by rewrite on_room_message_local_provenance.
Qed.

(** X18 at sample data. *)
Lemma on_room_message_acts_only_on_fresh_foreign_events_witness :
  sender plain_event <> bot_user_id example_config
  /\ bot_start_time example_config < server_timestamp plain_event
  /\ ~ (truthy (meshtastic_longname plain_event) = true
        /\ truthy (meshtastic_meshnet plain_event) = true
        /\ meshtastic_meshnet plain_event = Some (meshnet_name example_config)).
Proof.
  apply (on_room_message_acts_only_on_fresh_foreign_events example_world
           example_config [] (py "!room1") plain_event).
  vm_compute. discriminate.
Defined.

(* ===================================================================== *)
(** * More on the radio-to-chat callback *)
(* ===================================================================== *)

(** ** More on [on_meshtastic_message] *)


(** X19.  A text packet without a channel field is routed as channel 0 when
    its port number is [TEXT_MESSAGE_APP], and dropped otherwise. *)
Theorem on_meshtastic_message_without_channel cfg db plugins packet c s :
  decoded_text packet = Some (c :: s) ->
  channel packet = None ->
  (portnum packet = py "TEXT_MESSAGE_APP" ->
   rooms_sent_to (run_loop (on_meshtastic_message cfg db plugins packet))
   = map room_id (rooms_for_channel cfg 0))
  /\ (portnum packet <> py "TEXT_MESSAGE_APP" ->
      on_meshtastic_message cfg db plugins packet = []).
Proof.
  intros Ht Hch. split; intros Hport.
  - apply (on_meshtastic_message_rooms_sent cfg db plugins packet c s 0 Ht).
    unfold packet_channel. by rewrite Hch, bool_decide_eq_true_2.
  - unfold on_meshtastic_message, packet_channel.
    by rewrite Ht, Hch, bool_decide_eq_false_2.
Qed.

(** X19 at sample data. *)
Lemma on_meshtastic_message_without_channel_witness :
  rooms_sent_to
    (run_loop (on_meshtastic_message example_config example_db [quiet_plugin]
                 channelless_packet))
  = map room_id (rooms_for_channel example_config 0).
Proof.
  apply (proj1 (on_meshtastic_message_without_channel example_config
                  example_db [quiet_plugin] channelless_packet 104 [105]
                  eq_refl eq_refl)).
  reflexivity.
Defined.



